(** * Recruitment ETL: the transform stage of [src/transform.py]

    A shallow embedding of the transform stage (data-quality cleansing, the
    hiring rule, the five dimension builders, the fact builder and the
    orchestrator) together with the properties of the star schema it builds.

    Conventions of the embedding.
    - A pandas [DataFrame] is the list of its rows, in positional order; a
      column selection [df["Country"]] is the projection mapped over the rows.
    - The frame handed over by the extract step may hold nulls (NaN / NaT):
      its rows are [Raw.Row], every cell an [option]. Once
      [handle_data_quality] has run no cell is null, and the rest of the
      pipeline works on the typed view [Row].
    - A text cell is a [string] whose characters are code points below 256;
      Python compares strings code point by code point, which is the order
      [String.le] of stdpp.
    - ["Application Date"] holds the timestamps [pd.to_datetime] makes of the
      CSV cells: a calendar date with a time of day (midnight when the cell
      gives a date alone).
    - A column has the dtype [pd.read_csv] infers for it: a text column is
      [object] unless it has rows and every one of them is empty, in which
      case it is [float64]; a text cell that is not empty holds text.
    - Scores, years of experience and keys are integers ([Z]); no arithmetic
      of the transform comes near the 64-bit range.
    - [print] is kept as an effect: every function runs in the monad [Py],
      which threads the lines written to standard output and can raise. *)

From Stdlib Require Import ZArith NArith Ascii.
From stdpp Require Import base tactics option list sorting numbers strings
  pretty countable gmap.

Open Scope Z_scope.

#[local] Set Warnings "-clear-no-such-hyp".

(** ** Python values *)

(** [str.isspace] on one character: the ASCII table of CPython
    (TAB, LF, VT, FF, CR, FS, GS, RS, US, SPACE) and, above 127 and below
    256, NEL (0x85) and NBSP (0xA0). *)
Definition isspace (c : ascii) : bool :=
  let n := N_of_ascii c in
  ((9 <=? n) && (n <=? 13) || (28 <=? n) && (n <=? 32)
   || (n =? 133) || (n =? 160))%N.

(** [str.lstrip()], [str.rstrip()] and [str.strip()] with no argument. *)
Fixpoint lstrip (s : string) : string :=
  match s with
  | String c s' => if isspace c then lstrip s' else s
  | EmptyString => EmptyString
  end.

Fixpoint rstrip (s : string) : string :=
  match s with
  | EmptyString => EmptyString
  | String c s' =>
      match rstrip s' with
      | EmptyString => if isspace c then EmptyString else String c EmptyString
      | t => String c t
      end
  end.

Definition strip (s : string) : string := rstrip (lstrip s).

(** A value of the ["Application Date"] column, of dtype [datetime64[ns]]:
    a calendar date and a time of day, the latter in nanoseconds since
    midnight. *)
Record Timestamp := mkTimestamp {
  dt_year : N; dt_month : N; dt_day : N; dt_time : N
}.

Global Instance Timestamp_eq_dec : EqDecision Timestamp.
Proof. solve_decision. Defined.

Global Instance Timestamp_countable : Countable Timestamp.
Proof.
  refine (inj_countable' (λ t, (dt_year t, dt_month t, dt_day t, dt_time t))
            (λ p, mkTimestamp p.1.1.1 p.1.1.2 p.1.2 p.2) _).
  by intros [].
Defined.

(** [dt.date]: the calendar date of a timestamp. *)
Definition dt_date (t : Timestamp) : N * N * N :=
  (dt_year t, dt_month t, dt_day t).

(** Chronological comparison of two timestamps. *)
Definition timestamp_compare (t1 t2 : Timestamp) : comparison :=
  match (dt_year t1 ?= dt_year t2)%N with
  | Eq => match (dt_month t1 ?= dt_month t2)%N with
          | Eq => match (dt_day t1 ?= dt_day t2)%N with
                  | Eq => (dt_time t1 ?= dt_time t2)%N
                  | c => c
                  end
          | c => c
          end
  | c => c
  end.

Definition timestamp_le (t1 t2 : Timestamp) : Prop :=
  timestamp_compare t1 t2 ≠ Gt.
Definition timestamp_lt (t1 t2 : Timestamp) : Prop :=
  timestamp_compare t1 t2 = Lt.

Global Instance timestamp_le_dec : RelDecision timestamp_le.
Proof. intros t1 t2. unfold timestamp_le. apply _. Defined.

(** [zfill]: left-pad with zeros to the given width. *)
Fixpoint zeros (k : nat) : string :=
  match k with
  | O => EmptyString
  | S k' => String "0" (zeros k')
  end.

Definition zfill (w : nat) (s : string) : string :=
  zeros (w - String.length s) +:+ s.

(** [Timestamp.strftime("%Y-%m-%d")]: the format has no directive for the
    time of day. *)
Definition strftime (t : Timestamp) : string :=
  zfill 4 (pretty (dt_year t)) +:+ "-" +:+
  zfill 2 (pretty (dt_month t)) +:+ "-" +:+
  zfill 2 (pretty (dt_day t)).

(** [dt.quarter]: pandas computes [((month - 1) // 3) + 1]. *)
Definition quarter_of_month (m : Z) : Z := (m - 1) `div` 3 + 1.

(** ** Frames *)

(** The frame returned by [extract_data]: any cell may be null. *)
Module Raw.
Record Row := mkRow {
  First_Name : option string;
  Last_Name : option string;
  Email : option string;
  Application_Date : option Timestamp;
  Country : option string;
  YOE : option Z;
  Seniority : option string;
  Technology : option string;
  Code_Challenge_Score : option Z;
  Technical_Interview_Score : option Z
}.
End Raw.

(** A row without nulls. *)
Record Row := mkRow {
  First_Name : string;
  Last_Name : string;
  Email : string;
  Application_Date : Timestamp;
  Country : string;
  YOE : Z;
  Seniority : string;
  Technology : string;
  Code_Challenge_Score : Z;
  Technical_Interview_Score : Z
}.

(** A row of the frame returned by [apply_hiring_rule]: the ten columns and
    ["is_hired"]. *)
Record HiredRow := mkHiredRow { app :> Row; is_hired : Z }.

Global Instance Row_eq_dec : EqDecision Row.
Proof. solve_decision. Defined.
Global Instance RawRow_eq_dec : EqDecision Raw.Row.
Proof. solve_decision. Defined.

(** ** Standard output and exceptions *)

(** One [print] call. The text of a message is kept where it is fixed (up to
    its indentation and blank lines) and replaced by its arguments where it
    is formatted; the percentages of the two lines of the hiring report are
    floating-point renderings of the counts and are left out. *)
Inductive Msg :=
| Text (s : string)
| DroppedNulls (n : Z)
| Hired (n : Z)
| Rejected (n : Z)
| Records (table : string) (n : Z)
| NullForeignKeys (counts : list (string * Z)).

(** The exceptions the transform can raise: [InvalidIndexError] from a
    lookup in an index with repeated labels, [AttributeError] from the [.str]
    accessor of a column that is not text-typed. *)
Inductive exn := InvalidIndexError | AttributeError.

Global Instance exn_eq_dec : EqDecision exn.
Proof. solve_decision. Defined.

Inductive result (A : Type) :=
| Ok (a : A)
| Raise (e : exn).
Arguments Ok {A} a.
Arguments Raise {A} e.

Definition Stdout := list Msg.
Definition Py (A : Type) : Type := Stdout → result A * Stdout.

Definition py_ret {A} (a : A) : Py A := λ out, (Ok a, out).
Definition py_bind {A B} (m : Py A) (f : A → Py B) : Py B :=
  λ out, match m out with
         | (Ok a, out') => f a out'
         | (Raise e, out') => (Raise e, out')
         end.
Definition print (m : Msg) : Py unit := λ out, (Ok (), out ++ [m]).
Definition lift {A} (r : result A) : Py A := λ out, (r, out).

Global Instance Py_ret : MRet Py := @py_ret.
Global Instance Py_bind : MBind Py := λ A B f m, py_bind m f.

(** ** Cleanser: [handle_data_quality] *)

Definition isnull {A} (c : option A) : Z := if c is None then 1 else 0.

(** [df.isnull().sum().sum()] restricted to one row. *)
Definition row_nulls (r : Raw.Row) : Z :=
  isnull (Raw.First_Name r) + isnull (Raw.Last_Name r) + isnull (Raw.Email r)
  + isnull (Raw.Application_Date r) + isnull (Raw.Country r)
  + isnull (Raw.YOE r) + isnull (Raw.Seniority r) + isnull (Raw.Technology r)
  + isnull (Raw.Code_Challenge_Score r)
  + isnull (Raw.Technical_Interview_Score r).

Definition null_count (df : list Raw.Row) : Z :=
  foldr (λ r acc, row_nulls r + acc) 0 df.

(** [df.dropna()]: a row survives when none of its cells is null. *)
Definition dropna (df : list Raw.Row) : list Raw.Row :=
  filter (λ r, row_nulls r = 0) df.

(** The dtype of a text column. [pd.read_csv] reads an empty cell as NaN and
    types a column by what it holds: [object] when some cell holds text, and
    also when the frame has no row; [float64] when the column has rows and
    every one of them is empty. *)
Inductive Dtype := object | float64.

Definition dtype (s : list (option string)) : Dtype :=
  match s with
  | [] => object
  | _ :: _ => if bool_decide (Exists is_Some s) then object else float64
  end.

(** A text column, given by what [df[col]] reads and what [df[col] = v]
    writes in one row. *)
Record Column := mkColumn {
  getitem : Raw.Row → option string;
  setitem : option string → Raw.Row → Raw.Row
}.

(** [text_cols], in the order of the list in the source. *)
Definition text_cols : list Column :=
  [ mkColumn Raw.First_Name
      (λ v '(Raw.mkRow _ b c d e f g h i j), Raw.mkRow v b c d e f g h i j);
    mkColumn Raw.Last_Name
      (λ v '(Raw.mkRow a _ c d e f g h i j), Raw.mkRow a v c d e f g h i j);
    mkColumn Raw.Email
      (λ v '(Raw.mkRow a b _ d e f g h i j), Raw.mkRow a b v d e f g h i j);
    mkColumn Raw.Country
      (λ v '(Raw.mkRow a b c d _ f g h i j), Raw.mkRow a b c d v f g h i j);
    mkColumn Raw.Seniority
      (λ v '(Raw.mkRow a b c d e f _ h i j), Raw.mkRow a b c d e f v h i j);
    mkColumn Raw.Technology
      (λ v '(Raw.mkRow a b c d e f g _ i j), Raw.mkRow a b c d e f g v i j) ].

(** [s.str.strip()]. The [.str] accessor is refused on a column that is not
    text-typed ("Can only use .str accessor with string values"); on a text
    column every cell is stripped and a null cell stays null. *)
Definition str_strip (dt : Dtype) (s : list (option string))
  : result (list (option string)) :=
  match dt with
  | object => Ok ((λ c : option string, strip <$> c) <$> s)
  | float64 => Raise AttributeError
  end.

(** [df[col] = s]: the column is replaced, cell by cell. *)
Definition assign (col : Column) (s : list (option string))
    (df : list Raw.Row) : list Raw.Row :=
  zip_with (setitem col) s df.

(** The loop [for col in text_cols: df[col] = df[col].str.strip()];
    [dtypes] gives the dtype of each column of the frame. *)
Fixpoint strip_columns (dtypes : Column → Dtype) (cols : list Column)
    (df : list Raw.Row) : result (list Raw.Row) :=
  match cols with
  | [] => Ok df
  | col :: cols' =>
      match str_strip (dtypes col) (getitem col <$> df) with
      | Ok s => strip_columns dtypes cols' (assign col s df)
      | Raise e => Raise e
      end
  end.

(** The function works on [df.copy()]: the caller's frame is left as it is,
    which is why frames are passed by value here. The dtypes are those of the
    frame received: [dropna] removes rows and keeps the dtype of every
    column, and a stripped column is text-typed as before. *)
Definition handle_data_quality (df : list Raw.Row) : Py (list Raw.Row) :=
  let dtypes := λ col, dtype (getitem col <$> df) in
  let initial_count := Z.of_nat (length df) in
  df ← (if decide (0 < null_count df) then
          let df' := dropna df in
          print (DroppedNulls (initial_count - Z.of_nat (length df')));;
          mret df'
        else
          print (Text "No null values found. Dataset is clean.");;
          mret df);
  df ← lift (strip_columns dtypes text_cols df);
  print (Text "Text columns stripped of whitespace.");;
  mret df.

(** The typed view of a frame: the rows that hold no null, read as [Row]. On
    the frame returned by [handle_data_quality] it loses nothing
    ([typed_handle_data_quality] below). *)
Definition typed_row (r : Raw.Row) : option Row :=
  a ← Raw.First_Name r; b ← Raw.Last_Name r; c ← Raw.Email r;
  d ← Raw.Application_Date r; e ← Raw.Country r; f ← Raw.YOE r;
  g ← Raw.Seniority r; h ← Raw.Technology r;
  i ← Raw.Code_Challenge_Score r; j ← Raw.Technical_Interview_Score r;
  Some (mkRow a b c d e f g h i j).

Definition typed (df : list Raw.Row) : list Row := omap typed_row df.

Definition untyped_row (r : Row) : Raw.Row :=
  Raw.mkRow (Some (First_Name r)) (Some (Last_Name r)) (Some (Email r))
    (Some (Application_Date r)) (Some (Country r)) (Some (YOE r))
    (Some (Seniority r)) (Some (Technology r))
    (Some (Code_Challenge_Score r)) (Some (Technical_Interview_Score r)).

(** ** RuleEngine: [apply_hiring_rule] *)

(** [((cc >= 7) & (ti >= 7)).astype(int)] on one row. *)
Definition hiring_rule (r : Row) : Z :=
  if bool_decide (7 ≤ Code_Challenge_Score r)
     && bool_decide (7 ≤ Technical_Interview_Score r)
  then 1 else 0.

(** [df["is_hired"].sum()]. *)
Definition sum_is_hired (df : list HiredRow) : Z :=
  foldr (λ r acc, is_hired r + acc) 0 df.

(** Works on [df.copy()] too: the flag column is added to the copy. On an
    empty frame the two percentages divide a numpy integer by zero, which
    gives nan and a warning, not an exception. *)
Definition apply_hiring_rule (df : list Row) : Py (list HiredRow) :=
  let df := (λ r, mkHiredRow r (hiring_rule r)) <$> df in
  let hired_count := sum_is_hired df in
  print (Text "Hiring rule applied:");;
  print (Hired hired_count);;
  print (Rejected (Z.of_nat (length df) - hired_count));;
  mret df.

(** ** pandas primitives used by the builders *)

(** [Series.drop_duplicates()] / [DataFrame.drop_duplicates()] with the
    default [keep="first"]: an entry is a duplicate when an equal entry has
    been seen before it. *)
Fixpoint drop_duplicates_from `{EqDecision A} (seen l : list A) : list A :=
  match l with
  | [] => []
  | x :: l' =>
      if decide (x ∈ seen) then drop_duplicates_from seen l'
      else x :: drop_duplicates_from (x :: seen) l'
  end.

Definition drop_duplicates `{EqDecision A} (l : list A) : list A :=
  drop_duplicates_from [] l.

(** [Series.sort_values()], ascending. The values sorted by the builders are
    distinct, so the unstable default algorithm has one possible result, the
    one merge sort computes. *)
Definition sort_values_str : list string → list string := merge_sort String.le.
Definition sort_values_date : list Timestamp → list Timestamp :=
  merge_sort timestamp_le.

(** [reset_index(drop=True)]: the fresh [RangeIndex] 0, 1, ..., n-1, kept
    next to each entry. *)
Definition reset_index {A} (l : list A) : list (Z * A) :=
  imap (λ i x, (Z.of_nat i, x)) l.

(** [dim.index += k]. *)
Definition index_add {A} (k : Z) (l : list (Z * A)) : list (Z * A) :=
  prod_map (λ i, i + k) id <$> l.

(** Position of the first occurrence of a label. *)
Fixpoint first_index `{EqDecision A} (x : A) (l : list A) : option nat :=
  match l with
  | [] => None
  | y :: l' => if decide (x = y) then Some O else S <$> first_index x l'
  end.

(** [Index.get_indexer(target)]: the position of every target label in the
    index, or -1 (here [None]) for a label that is absent. pandas refuses an
    index with repeated labels with [InvalidIndexError]. *)
Definition get_indexer `{EqDecision K} (index target : list K)
  : result (list (option nat)) :=
  if decide (NoDup index)
  then Ok ((λ x, first_index x index) <$> target)
  else Raise InvalidIndexError.

(** [take_nd(values, indexer)]: position -1 is filled with NaN. *)
Definition take_nd (values : list Z) (indexer : list (option nat))
  : list (option Z) :=
  (λ i, i ≫= (values !!.)) <$> indexer.

(** [arr.map(mapper)] for a [Series] mapper, given as its (label, value)
    entries. *)
Definition map_values `{EqDecision K} (arr : list K) (mapper : list (K * Z))
  : result (list (option Z)) :=
  match get_indexer mapper.*1 arr with
  | Ok indexer => Ok (take_nd mapper.*2 indexer)
  | Raise e => Raise e
  end.

(** ** DimensionBuilder: the five [create_dim_*] *)

Record DimCandidate := mkDimCandidate {
  candidate_key : Z; first_name : string; last_name : string; email : string
}.
Record DimDate := mkDimDate {
  date_key : Z; full_date : string; year : Z; month : Z; quarter : Z
}.
Record DimCountry := mkDimCountry { country_key : Z; country_name : string }.
Record DimSeniority := mkDimSeniority {
  seniority_key : Z; seniority_level : string
}.
Record DimTechnology := mkDimTechnology {
  technology_key : Z; technology_name : string
}.

(** The natural key of the candidate dimension:
    [df[["First Name", "Last Name", "Email"]]]. *)
Definition candidate_of (r : Row) : string * string * string :=
  (First_Name r, Last_Name r, Email r).

Definition create_dim_candidate (df : list HiredRow)
  : Py (list DimCandidate) :=
  let dim :=
    reset_index (drop_duplicates ((λ r : HiredRow, candidate_of r) <$> df)) in
  let dim := index_add 1 dim in
  let dim := (λ e, mkDimCandidate e.1 e.2.1.1 e.2.1.2 e.2.2) <$> dim in
  print (Records "DIM_CANDIDATE" (Z.of_nat (length dim)));;
  mret dim.

Definition create_dim_date (df : list HiredRow) : Py (list DimDate) :=
  let dates :=
    reset_index
      (sort_values_date
         (drop_duplicates ((λ r : HiredRow, Application_Date r) <$> df))) in
  let dim :=
    (λ e, (e.1, (strftime e.2, Z.of_N (dt_year e.2), Z.of_N (dt_month e.2),
                 quarter_of_month (Z.of_N (dt_month e.2))))) <$> dates in
  let dim := index_add 1 dim in
  let dim := (λ e, mkDimDate e.1 e.2.1.1.1 e.2.1.1.2 e.2.1.2 e.2.2) <$> dim in
  print (Records "DIM_DATE" (Z.of_nat (length dim)));;
  mret dim.

Definition create_dim_country (df : list HiredRow) : Py (list DimCountry) :=
  let countries :=
    reset_index (sort_values_str
                   (drop_duplicates ((λ r : HiredRow, Country r) <$> df))) in
  let dim := index_add 1 countries in
  let dim := (λ e, mkDimCountry e.1 e.2) <$> dim in
  print (Records "DIM_COUNTRY" (Z.of_nat (length dim)));;
  mret dim.

Definition create_dim_seniority (df : list HiredRow)
  : Py (list DimSeniority) :=
  let levels :=
    reset_index (sort_values_str
                   (drop_duplicates ((λ r : HiredRow, Seniority r) <$> df))) in
  let dim := index_add 1 levels in
  let dim := (λ e, mkDimSeniority e.1 e.2) <$> dim in
  print (Records "DIM_SENIORITY" (Z.of_nat (length dim)));;
  mret dim.

Definition create_dim_technology (df : list HiredRow)
  : Py (list DimTechnology) :=
  let techs :=
    reset_index (sort_values_str
                   (drop_duplicates ((λ r : HiredRow, Technology r) <$> df))) in
  let dim := index_add 1 techs in
  let dim := (λ e, mkDimTechnology e.1 e.2) <$> dim in
  print (Records "DIM_TECHNOLOGY" (Z.of_nat (length dim)));;
  mret dim.

(** ** FactBuilder: [create_fact_table] *)

Module Fact.
(** A mapped key column holds NaN where the lookup found nothing. *)
Record Row := mkRow {
  application_id : Z;
  candidate_key : option Z;
  date_key : option Z;
  country_key : option Z;
  seniority_key : option Z;
  technology_key : option Z;
  code_challenge_score : Z;
  technical_interview_score : Z;
  is_hired : Z
}.
End Fact.

(** The cell of a mapped column at a row position. *)
Definition cell (col : list (option Z)) (i : nat) : option Z :=
  mjoin (col !! i).

(** [col.isnull().sum()]. *)
Definition isnull_sum (col : list (option Z)) : Z :=
  foldr (λ c acc, isnull c + acc) 0 col.

(** [fact[[the five key columns]].isnull().sum()], one count per column. *)
Definition null_keys (fact : list Fact.Row) : list (string * Z) :=
  [ ("candidate_key", isnull_sum (Fact.candidate_key <$> fact));
    ("date_key", isnull_sum (Fact.date_key <$> fact));
    ("country_key", isnull_sum (Fact.country_key <$> fact));
    ("seniority_key", isnull_sum (Fact.seniority_key <$> fact));
    ("technology_key", isnull_sum (Fact.technology_key <$> fact)) ].

(** The lookup series [dim.set_index(natural key)[surrogate key]]. *)
Definition candidate_map (dim : list DimCandidate)
  : list (string * string * string * Z) :=
  (λ d, ((first_name d, last_name d, email d), candidate_key d)) <$> dim.
Definition date_map (dim : list DimDate) : list (string * Z) :=
  (λ d, (full_date d, date_key d)) <$> dim.
Definition country_map (dim : list DimCountry) : list (string * Z) :=
  (λ d, (country_name d, country_key d)) <$> dim.
Definition seniority_map (dim : list DimSeniority) : list (string * Z) :=
  (λ d, (seniority_level d, seniority_key d)) <$> dim.
Definition tech_map (dim : list DimTechnology) : list (string * Z) :=
  (λ d, (technology_name d, technology_key d)) <$> dim.

(** [fact = df.copy()] receives the five mapped columns; the selection of
    the fact columns, their renaming and the insertion of
    ["application_id"] = [range(1, len(fact) + 1)] are the construction of
    the fact rows below. *)
Definition create_fact_table (df : list HiredRow)
    (dim_candidate : list DimCandidate) (dim_date : list DimDate)
    (dim_country : list DimCountry) (dim_seniority : list DimSeniority)
    (dim_technology : list DimTechnology) : Py (list Fact.Row) :=
  fk_candidate ←
    lift (map_values ((λ r : HiredRow, candidate_of r) <$> df)
            (candidate_map dim_candidate));
  fk_date ←
    lift (map_values ((λ r : HiredRow, strftime (Application_Date r)) <$> df)
            (date_map dim_date));
  fk_country ←
    lift (map_values ((λ r : HiredRow, Country r) <$> df)
            (country_map dim_country));
  fk_seniority ←
    lift (map_values ((λ r : HiredRow, Seniority r) <$> df)
            (seniority_map dim_seniority));
  fk_technology ←
    lift (map_values ((λ r : HiredRow, Technology r) <$> df)
            (tech_map dim_technology));
  let fact :=
    imap (λ i (r : HiredRow),
            Fact.mkRow (Z.of_nat i + 1)
              (cell fk_candidate i) (cell fk_date i) (cell fk_country i)
              (cell fk_seniority i) (cell fk_technology i)
              (Code_Challenge_Score r) (Technical_Interview_Score r)
              (is_hired r)) df in
  let null_keys := null_keys fact in
  (if decide (0 < foldr (λ c acc, c.2 + acc) 0 null_keys)
   then print (NullForeignKeys (filter (λ c, 0 < c.2) null_keys))
   else print (Text "Referential integrity check: PASSED"));;
  print (Records "FACT_APPLICATIONS" (Z.of_nat (length fact)));;
  mret fact.

(** ** TransformOrchestrator: [transform_data] *)

(** ["=" * 60]. *)
Definition rule : string :=
  "============================================================".

Record Tables := mkTables {
  dim_candidate : list DimCandidate;
  dim_date : list DimDate;
  dim_country : list DimCountry;
  dim_seniority : list DimSeniority;
  dim_technology : list DimTechnology;
  fact_applications : list Fact.Row
}.

Definition transform_data (df : list Raw.Row) : Py Tables :=
  print (Text rule);;
  print (Text "STEP 2: TRANSFORMATION");;
  print (Text rule);;
  print (Text "[1/7] Handling data quality...");;
  df ← handle_data_quality df;
  print (Text "[2/7] Applying hiring business rule...");;
  df ← apply_hiring_rule (typed df);
  print (Text "[3/7] Creating DIM_CANDIDATE...");;
  dim_candidate ← create_dim_candidate df;
  print (Text "[4/7] Creating DIM_DATE...");;
  dim_date ← create_dim_date df;
  print (Text "[5/7] Creating DIM_COUNTRY...");;
  dim_country ← create_dim_country df;
  print (Text "[6/7] Creating DIM_SENIORITY...");;
  dim_seniority ← create_dim_seniority df;
  print (Text "[7/7] Creating DIM_TECHNOLOGY...");;
  dim_technology ← create_dim_technology df;
  print (Text "[FACT] Building FACT_APPLICATIONS...");;
  fact ← create_fact_table df dim_candidate dim_date dim_country
           dim_seniority dim_technology;
  print (Text "Transformation completed successfully!");;
  mret (mkTables dim_candidate dim_date dim_country dim_seniority
          dim_technology fact).

(** * Vocabulary of the properties *)

(** ** Running a computation *)

(** [returns m v log]: from any state of standard output, [m] returns [v]
    without raising, after printing exactly [log]. *)
Definition returns {A} (m : Py A) (v : A) (log : list Msg) : Prop :=
  ∀ out, m out = (Ok v, out ++ log).

(** [raises m e log]: from any state of standard output, [m] raises [e]
    after printing exactly [log]. *)
Definition raises {A} (m : Py A) (e : exn) (log : list Msg) : Prop :=
  ∀ out, m out = (Raise e, out ++ log).

(** ** Text *)

Definition first_char (s : string) : option ascii :=
  match s with
  | String c _ => Some c
  | EmptyString => None
  end.

Fixpoint last_char (s : string) : option ascii :=
  match s with
  | EmptyString => None
  | String c EmptyString => Some c
  | String _ s' => last_char s'
  end.

(** Neither the first nor the last character is whitespace. *)
Definition trimmed (s : string) : Prop :=
  (∀ c, first_char s = Some c → isspace c = false) ∧
  (∀ c, last_char s = Some c → isspace c = false).

(** A row with its six text cells stripped, a null cell staying null, and
    its other cells as they are. *)
Definition strip_text_cols (r : Raw.Row) : Raw.Row :=
  {| Raw.First_Name := strip <$> Raw.First_Name r;
     Raw.Last_Name := strip <$> Raw.Last_Name r;
     Raw.Email := strip <$> Raw.Email r;
     Raw.Application_Date := Raw.Application_Date r;
     Raw.Country := strip <$> Raw.Country r;
     Raw.YOE := Raw.YOE r;
     Raw.Seniority := strip <$> Raw.Seniority r;
     Raw.Technology := strip <$> Raw.Technology r;
     Raw.Code_Challenge_Score := Raw.Code_Challenge_Score r;
     Raw.Technical_Interview_Score := Raw.Technical_Interview_Score r |}.

(** Every text column is text-typed: the frame has no row, or each of the
    six text columns holds text in at least one row. *)
Definition text_typed (df : list Raw.Row) : Prop :=
  df = [] ∨ Forall (λ col, Exists (λ r, is_Some (getitem col r)) df) text_cols.

Global Instance text_typed_dec df : Decision (text_typed df).
Proof. unfold text_typed. apply _. Defined.

(** The six text cells of a row, where they are not null. *)
Definition text_cells (r : Raw.Row) : list string :=
  omap id [Raw.First_Name r; Raw.Last_Name r; Raw.Email r; Raw.Country r;
           Raw.Seniority r; Raw.Technology r].

Fixpoint no_dash (s : string) : Prop :=
  match s with
  | EmptyString => True
  | String c s' => c ≠ "-"%char ∧ no_dash s'
  end.

(** Removal of leading zeros, the inverse of padding. *)
Fixpoint lstrip_zeros (s : string) : string :=
  match s with
  | String c s' => if decide (c = "0"%char) then lstrip_zeros s' else s
  | EmptyString => EmptyString
  end.

(** ** Keys and their order *)

(** [x] occurs in [l], and for the first time before [y] does. *)
Definition first_before `{EqDecision A} (l : list A) (x y : A) : Prop :=
  ∃ i j, first_index x l = Some i ∧ first_index y l = Some j ∧ (i < j)%nat.

(** Number of distinct values in a column. *)
Definition distinct_count `{Countable A} (col : list A) : Z :=
  Z.of_nat (size (list_to_set (C:=gset A) col)).

(** The keys are exactly 1, ..., k: none twice, none missing. *)
Definition dense (keys : list Z) (k : Z) : Prop :=
  keys = seqZ 1 k ∧ NoDup keys ∧ ∀ z, z ∈ keys ↔ 1 ≤ z ≤ k.

(** [dim] has one row per value of [col], keyed 1, 2, ... down the table, and
    a row has a smaller key than another exactly when its natural key comes
    before the other's in the order [R]. *)
Definition keyed_in_order {A B} (key : B → Z) (val : B → A) (R : relation A)
    (col : list A) (dim : list B) : Prop :=
  NoDup (val <$> dim) ∧
  (∀ x, x ∈ val <$> dim ↔ x ∈ col) ∧
  key <$> dim = seqZ 1 (Z.of_nat (length dim)) ∧
  ∀ r1 r2, r1 ∈ dim → r2 ∈ dim → key r1 < key r2 ↔ R (val r1) (val r2).

(** ** Lookups *)

(** What [map_values] puts in the cell of a label: the value stored at the
    position of the label in the mapper's index, or NaN. *)
Definition resolve `{EqDecision K} (mapper : list (K * Z)) (x : K) : option Z :=
  first_index x mapper.*1 ≫= (mapper.*2 !!.).

(** Number of entries of a key column that are absent from a dimension. *)
Definition unresolved `{EqDecision K} (keys names : list K) : Z :=
  Z.of_nat (length (filter (λ k, k ∉ names) keys)).

(** ** The tables the builders return *)

(** Rows made from a list of natural keys, keyed 1, 2, ... in list order. *)
Definition with_keys {A B} (mk : Z → A → B) (l : list A) : list B :=
  imap (λ i x, mk (Z.of_nat i + 1) x) l.

Definition candidates (df : list HiredRow) : list (string * string * string) :=
  drop_duplicates ((λ r : HiredRow, candidate_of r) <$> df).
Definition dates (df : list HiredRow) : list Timestamp :=
  sort_values_date
    (drop_duplicates ((λ r : HiredRow, Application_Date r) <$> df)).
Definition labels (col : Row → string) (df : list HiredRow) : list string :=
  sort_values_str (drop_duplicates ((λ r : HiredRow, col r) <$> df)).

Definition date_row (k : Z) (t : Timestamp) : DimDate :=
  mkDimDate k (strftime t) (Z.of_N (dt_year t)) (Z.of_N (dt_month t))
    (quarter_of_month (Z.of_N (dt_month t))).

Definition candidate_row (k : Z) (t : string * string * string)
  : DimCandidate :=
  mkDimCandidate k t.1.1 t.1.2 t.2.

Definition built_candidate (df : list HiredRow) : list DimCandidate :=
  with_keys candidate_row (candidates df).
Definition built_date (df : list HiredRow) : list DimDate :=
  with_keys date_row (dates df).
Definition built_country (df : list HiredRow) : list DimCountry :=
  with_keys mkDimCountry (labels Country df).
Definition built_seniority (df : list HiredRow) : list DimSeniority :=
  with_keys mkDimSeniority (labels Seniority df).
Definition built_technology (df : list HiredRow) : list DimTechnology :=
  with_keys mkDimTechnology (labels Technology df).

(** Row [i] of the fact table: its position plus one, the five lookups,
    and the measures of row [i] of the frame. *)
Definition fact_row (dc : list DimCandidate) (dd : list DimDate)
    (dco : list DimCountry) (ds : list DimSeniority)
    (dt : list DimTechnology) (i : nat) (r : HiredRow) : Fact.Row :=
  Fact.mkRow (Z.of_nat i + 1)
    (resolve (candidate_map dc) (candidate_of r))
    (resolve (date_map dd) (strftime (Application_Date r)))
    (resolve (country_map dco) (Country r))
    (resolve (seniority_map ds) (Seniority r))
    (resolve (tech_map dt) (Technology r))
    (Code_Challenge_Score r) (Technical_Interview_Score r) (is_hired r).

Definition fact_rows (df : list HiredRow) (dc : list DimCandidate)
    (dd : list DimDate) (dco : list DimCountry) (ds : list DimSeniority)
    (dt : list DimTechnology) : list Fact.Row :=
  imap (fact_row dc dd dco ds dt) df.

(** The line the referential-integrity check prints. *)
Definition integrity_report (fact : list Fact.Row) : Msg :=
  if decide (0 < foldr (λ c acc, c.2 + acc) 0 (null_keys fact))
  then NullForeignKeys (filter (λ c, 0 < c.2) (null_keys fact))
  else Text "Referential integrity check: PASSED".

(** No dimension lists a natural key twice. *)
Definition unique_natural_keys (dc : list DimCandidate) (dd : list DimDate)
    (dco : list DimCountry) (ds : list DimSeniority)
    (dt : list DimTechnology) : Prop :=
  NoDup ((λ d, (first_name d, last_name d, email d)) <$> dc) ∧
  NoDup (full_date <$> dd) ∧
  NoDup (country_name <$> dco) ∧
  NoDup (seniority_level <$> ds) ∧
  NoDup (technology_name <$> dt).

(** [fact] has one row per row of [df], with primary keys 1, 2, ... down the
    table, each row carrying the two scores and the hire flag of the row of
    [df] at the same position. *)
Definition one_row_per_application (df : list HiredRow)
    (fact : list Fact.Row) : Prop :=
  length fact = length df ∧
  Fact.application_id <$> fact = seqZ 1 (Z.of_nat (length df)) ∧
  ∀ i (r : HiredRow), df !! i = Some r →
    ∃ f, fact !! i = Some f ∧
      Fact.application_id f = Z.of_nat i + 1 ∧
      Fact.code_challenge_score f = Code_Challenge_Score r ∧
      Fact.technical_interview_score f = Technical_Interview_Score r ∧
      Fact.is_hired f = is_hired r.

(** The counts the referential-integrity check is expected to report: per
    foreign-key column, the number of rows whose natural key is absent from
    the dimension. *)
Definition expected_null_keys (df : list HiredRow) (dc : list DimCandidate)
    (dd : list DimDate) (dco : list DimCountry) (ds : list DimSeniority)
    (dt : list DimTechnology) : list (string * Z) :=
  [ ("candidate_key",
     unresolved ((λ r : HiredRow, candidate_of r) <$> df)
       ((λ d, (first_name d, last_name d, email d)) <$> dc));
    ("date_key",
     unresolved ((λ r : HiredRow, strftime (Application_Date r)) <$> df)
       (full_date <$> dd));
    ("country_key",
     unresolved ((λ r : HiredRow, Country r) <$> df) (country_name <$> dco));
    ("seniority_key",
     unresolved ((λ r : HiredRow, Seniority r) <$> df)
       (seniority_level <$> ds));
    ("technology_key",
     unresolved ((λ r : HiredRow, Technology r) <$> df)
       (technology_name <$> dt)) ].

(** ** Sample frames and dimensions *)

(** The two applications of the worked example: same date, country and
    technology, different candidates and seniority levels. *)
Definition two_applications : list Raw.Row :=
  [ Raw.mkRow (Some "A") (Some "B") (Some "eA") (Some (mkTimestamp 2024 1 10 0))
      (Some "US") (Some 1) (Some "Junior") (Some "Go") (Some 8) (Some 8);
    Raw.mkRow (Some "C") (Some "D") (Some "eC") (Some (mkTimestamp 2024 1 10 0))
      (Some "US") (Some 9) (Some "Senior") (Some "Go") (Some 5) (Some 9) ].

Definition padded_frame : list Raw.Row :=
  [ Raw.mkRow (Some " Ana") (Some "Diaz") (Some "ana@example.com")
      (Some (mkTimestamp 2021 2 26 0)) (Some "Norway") (Some 2) (Some "Intern")
      (Some "Data Engineer") (Some 3) (Some 3) ].

Definition trimmed_frame : list Raw.Row :=
  [ Raw.mkRow (Some "Ana") (Some "Diaz") (Some "ana@example.com")
      (Some (mkTimestamp 2021 2 26 0)) (Some "Norway") (Some 2) (Some "Intern")
      (Some "Data Engineer") (Some 3) (Some 3) ].

Definition stray_row : HiredRow :=
  mkHiredRow
    (mkRow "Ana" "Diaz" "ana@example.com" (mkTimestamp 2021 2 26 0) "France" 2
       "Intern" "Go" 8 8) 1.

Definition one_candidate : list DimCandidate :=
  [mkDimCandidate 1 "Ana" "Diaz" "ana@example.com"].
Definition one_date : list DimDate := [mkDimDate 1 "2021-02-26" 2021 2 1].
Definition one_seniority : list DimSeniority := [mkDimSeniority 1 "Intern"].
Definition one_technology : list DimTechnology := [mkDimTechnology 1 "Go"].

Definition norway_twice : list DimCountry :=
  [mkDimCountry 1 "Norway"; mkDimCountry 2 "Norway"].
Definition norway_once : list DimCountry := [mkDimCountry 1 "Norway"].

(** ** Vocabulary of the further properties *)

(** Every character is whitespace. *)
Fixpoint all_space (s : string) : Prop :=
  match s with
  | EmptyString => True
  | String c s' => isspace c = true ∧ all_space s'
  end.

(** Number of rows with at least one null cell. *)
Definition rows_with_null (df : list Raw.Row) : Z :=
  Z.of_nat (length (filter (λ r, row_nulls r ≠ 0) df)).

(** Both scores reach the threshold. *)
Definition meets_rule (r : Row) : Prop :=
  7 ≤ Code_Challenge_Score r ∧ 7 ≤ Technical_Interview_Score r.

Global Instance meets_rule_dec r : Decision (meets_rule r).
Proof. unfold meets_rule. apply _. Defined.

(** The frame [transform_data] hands to the builders: the rows without
    null, stripped, typed and flagged. *)
Definition cleaned (df : list Raw.Row) : list Raw.Row :=
  strip_text_cols <$> dropna df.
Definition flagged (df : list Row) : list HiredRow :=
  (λ r, mkHiredRow r (hiring_rule r)) <$> df.
Definition cleansed (df : list Raw.Row) : list HiredRow :=
  flagged (typed (cleaned df)).

(** The star schema built from a frame: the five built dimensions and the
    fact rows looked up in them. *)
Definition star (df : list HiredRow) : Tables :=
  mkTables (built_candidate df) (built_date df) (built_country df)
    (built_seniority df) (built_technology df)
    (fact_rows df (built_candidate df) (built_date df) (built_country df)
       (built_seniority df) (built_technology df)).

(** The tables are those the builders and the fact build return for the
    frame [df] (from the output state [out]). *)
Definition built_by_code (df : list HiredRow) (out : Stdout) (t : Tables)
  : Prop :=
  (create_dim_candidate df out).1 = Ok (dim_candidate t) ∧
  (create_dim_date df out).1 = Ok (dim_date t) ∧
  (create_dim_country df out).1 = Ok (dim_country t) ∧
  (create_dim_seniority df out).1 = Ok (dim_seniority t) ∧
  (create_dim_technology df out).1 = Ok (dim_technology t) ∧
  (create_fact_table df (dim_candidate t) (dim_date t) (dim_country t)
     (dim_seniority t) (dim_technology t) out).1
  = Ok (fact_applications t).

(** A frame with a row holding nulls and a row with padded text. *)
Definition ragged_frame : list Raw.Row :=
  [ Raw.mkRow (Some " Ana ") (Some "Diaz") (Some "ana@example.com")
      (Some (mkTimestamp 2021 2 26 0)) (Some "Norway") (Some 2) (Some "Intern")
      (Some "Go") (Some 7) (Some 9);
    Raw.mkRow (Some "Bo") None (Some "bo@example.com")
      (Some (mkTimestamp 2020 1 5 0)) None (Some 4) (Some "Senior")
      (Some "Go") (Some 9) (Some 9);
    Raw.mkRow (Some "Cy") (Some "Eng") (Some "cy@example.com")
      (Some (mkTimestamp 2020 1 5 0)) (Some "Chile") (Some 4) (Some "Senior")
      (Some "Rust") (Some 9) (Some 6) ].

Definition ana : HiredRow :=
  mkHiredRow
    (mkRow "Ana" "Diaz" "ana@example.com" (mkTimestamp 2021 2 26 0) "Norway" 2
       "Intern" "Go" 8 8) 1.

(** ** Calendar days *)

(** No two different timestamps of the column fall on one calendar day. *)
Definition one_time_per_day (col : list Timestamp) : Prop :=
  Forall (λ t1, Forall (λ t2, dt_date t1 = dt_date t2 → t1 = t2) col) col.

Global Instance one_time_per_day_dec col : Decision (one_time_per_day col).
Proof. unfold one_time_per_day. apply _. Defined.

(** The application dates of the rows that hold no null. *)
Definition surviving_dates (df : list Raw.Row) : list Timestamp :=
  omap Raw.Application_Date (dropna df).

(** 26 February 2021 at 09:00 and at 17:00. *)
Definition morning : Timestamp := mkTimestamp 2021 2 26 32400000000000.
Definition evening : Timestamp := mkTimestamp 2021 2 26 61200000000000.

(** Two applications filed on the same day, at different times. *)
Definition same_day_raw : list Raw.Row :=
  [ Raw.mkRow (Some "Ana") (Some "Diaz") (Some "ana@example.com")
      (Some morning) (Some "Norway") (Some 2) (Some "Intern") (Some "Go")
      (Some 8) (Some 8);
    Raw.mkRow (Some "Bo") (Some "Eng") (Some "bo@example.com")
      (Some evening) (Some "Chile") (Some 4) (Some "Senior") (Some "Rust")
      (Some 9) (Some 6) ].

Definition same_day_frame : list HiredRow :=
  [ mkHiredRow
      (mkRow "Ana" "Diaz" "ana@example.com" morning "Norway" 2 "Intern" "Go"
         8 8) 1;
    mkHiredRow
      (mkRow "Bo" "Eng" "bo@example.com" evening "Chile" 4 "Senior" "Rust"
         9 6) 0 ].

(** A frame whose ["Country"] column is empty in every row. *)
Definition no_country_frame : list Raw.Row :=
  [ Raw.mkRow (Some "Ana") (Some "Diaz") (Some "ana@example.com")
      (Some (mkTimestamp 2021 2 26 0)) None (Some 2) (Some "Intern")
      (Some "Go") (Some 8) (Some 8);
    Raw.mkRow (Some "Bo") (Some "Eng") (Some "bo@example.com")
      (Some (mkTimestamp 2020 1 5 0)) None (Some 4) (Some "Senior")
      (Some "Rust") (Some 9) (Some 6) ].

(** ** Sorting algorithms *)

(** [sort] implements [sort_values] for the order [R]: whatever it does, it
    returns the entries it was given, in ascending order. *)
Definition sorts {A} (R : relation A) (sort : list A → list A) : Prop :=
  ∀ l, Sorted R (sort l) ∧ sort l ≡ₚ l.

(** Sorting by insertion, an algorithm other than the merge sort of
    [sort_values_str] and [sort_values_date]. *)
Fixpoint insert_sorted {A} (R : relation A) `{!RelDecision R} (x : A)
    (l : list A) : list A :=
  match l with
  | [] => [x]
  | y :: l' => if decide (R x y) then x :: l else y :: insert_sorted R x l'
  end.

Definition insertion_sort {A} (R : relation A) `{!RelDecision R}
    (l : list A) : list A :=
  foldr (insert_sorted R) [] l.

(** The builders that sort, and the orchestrator, with the sorting algorithm
    of [sort_values] left open: [sort_date] sorts the date column and
    [sort_str] the three label columns. With the algorithms of
    [sort_values_date] and [sort_values_str] they are the builders and the
    orchestrator of the source. *)
Section any_sort.
Context (sort_date : list Timestamp → list Timestamp).
Context (sort_str : list string → list string).

Definition create_dim_date_by (df : list HiredRow) : Py (list DimDate) :=
  let dates :=
    reset_index
      (sort_date
         (drop_duplicates ((λ r : HiredRow, Application_Date r) <$> df))) in
  let dim :=
    (λ e, (e.1, (strftime e.2, Z.of_N (dt_year e.2), Z.of_N (dt_month e.2),
                 quarter_of_month (Z.of_N (dt_month e.2))))) <$> dates in
  let dim := index_add 1 dim in
  let dim := (λ e, mkDimDate e.1 e.2.1.1.1 e.2.1.1.2 e.2.1.2 e.2.2) <$> dim in
  print (Records "DIM_DATE" (Z.of_nat (length dim)));;
  mret dim.

Definition create_dim_country_by (df : list HiredRow)
  : Py (list DimCountry) :=
  let countries :=
    reset_index (sort_str
                   (drop_duplicates ((λ r : HiredRow, Country r) <$> df))) in
  let dim := index_add 1 countries in
  let dim := (λ e, mkDimCountry e.1 e.2) <$> dim in
  print (Records "DIM_COUNTRY" (Z.of_nat (length dim)));;
  mret dim.

Definition create_dim_seniority_by (df : list HiredRow)
  : Py (list DimSeniority) :=
  let levels :=
    reset_index (sort_str
                   (drop_duplicates ((λ r : HiredRow, Seniority r) <$> df))) in
  let dim := index_add 1 levels in
  let dim := (λ e, mkDimSeniority e.1 e.2) <$> dim in
  print (Records "DIM_SENIORITY" (Z.of_nat (length dim)));;
  mret dim.

Definition create_dim_technology_by (df : list HiredRow)
  : Py (list DimTechnology) :=
  let techs :=
    reset_index (sort_str
                   (drop_duplicates ((λ r : HiredRow, Technology r) <$> df))) in
  let dim := index_add 1 techs in
  let dim := (λ e, mkDimTechnology e.1 e.2) <$> dim in
  print (Records "DIM_TECHNOLOGY" (Z.of_nat (length dim)));;
  mret dim.

Definition transform_data_by (df : list Raw.Row) : Py Tables :=
  print (Text rule);;
  print (Text "STEP 2: TRANSFORMATION");;
  print (Text rule);;
  print (Text "[1/7] Handling data quality...");;
  df ← handle_data_quality df;
  print (Text "[2/7] Applying hiring business rule...");;
  df ← apply_hiring_rule (typed df);
  print (Text "[3/7] Creating DIM_CANDIDATE...");;
  dim_candidate ← create_dim_candidate df;
  print (Text "[4/7] Creating DIM_DATE...");;
  dim_date ← create_dim_date_by df;
  print (Text "[5/7] Creating DIM_COUNTRY...");;
  dim_country ← create_dim_country_by df;
  print (Text "[6/7] Creating DIM_SENIORITY...");;
  dim_seniority ← create_dim_seniority_by df;
  print (Text "[7/7] Creating DIM_TECHNOLOGY...");;
  dim_technology ← create_dim_technology_by df;
  print (Text "[FACT] Building FACT_APPLICATIONS...");;
  fact ← create_fact_table df dim_candidate dim_date dim_country
           dim_seniority dim_technology;
  print (Text "Transformation completed successfully!");;
  mret (mkTables dim_candidate dim_date dim_country dim_seniority
          dim_technology fact).
End any_sort.

(** * Properties *)

(** ** Running a computation *)

Section returns.
Context {A B : Type}.

Lemma returns_ret (a : A) : returns (mret a) a [].
Proof. intros out. by rewrite app_nil_r. Qed.

Lemma returns_print (m : Msg) : returns (print m) () [m].
Proof. by intros out. Qed.

Lemma returns_lift (a : A) : returns (lift (Ok a)) a [].
Proof. intros out. unfold lift. by rewrite app_nil_r. Qed.

Lemma returns_bind (m : Py A) (f : A → Py B) a b log1 log2 :
  returns m a log1 → returns (f a) b log2 →
  returns (m ≫= f) b (log1 ++ log2).
Proof.
  intros Hm Hf out. unfold mbind, Py_bind, py_bind.
  by rewrite Hm, Hf, (assoc_L (++)).
Qed.

Lemma raises_lift e : raises (lift (Raise e) : Py A) e [].
Proof. intros out. unfold lift. by rewrite app_nil_r. Qed.

(** An exception raised by the first step ends the run. *)
Lemma raises_bind (m : Py A) (f : A → Py B) e log :
  raises m e log → raises (m ≫= f) e log.
Proof. intros Hm out. unfold mbind, Py_bind, py_bind. by rewrite Hm. Qed.

(** An exception raised by a later step ends the run after what the first
    steps have printed. *)
Lemma returns_raises_bind (m : Py A) (f : A → Py B) a e log1 log2 :
  returns m a log1 → raises (f a) e log2 →
  raises (m ≫= f) e (log1 ++ log2).
Proof.
  intros Hm Hf out. unfold mbind, Py_bind, py_bind.
  by rewrite Hm, Hf, (assoc_L (++)).
Qed.

End returns.

Lemma returns_bind_eq {A B} (m : Py A) (f : A → Py B) a b log1 log2 log :
  returns m a log1 → returns (f a) b log2 → log = log1 ++ log2 →
  returns (m ≫= f) b log.
Proof. intros ?? ->. by eapply returns_bind. Qed.

Lemma returns_raises_bind_eq {A B} (m : Py A) (f : A → Py B) a e
    log1 log2 log :
  returns m a log1 → raises (f a) e log2 → log = log1 ++ log2 →
  raises (m ≫= f) e log.
Proof. intros ?? ->. by eapply returns_raises_bind. Qed.

Ltac returns_steps :=
  first
    [ apply returns_ret
    | apply returns_print
    | apply returns_lift
    | eapply returns_bind_eq; [returns_steps|returns_steps|reflexivity] ].

(** ** Cleanser *)

Lemma null_count_nonneg df : 0 ≤ null_count df.
Proof.
  induction df as [|r df IH]; simpl; [done|].
  assert (0 ≤ row_nulls r); [|lia].
  unfold row_nulls, isnull. repeat case_match; lia.
Qed.

Lemma row_nulls_nonneg r : 0 ≤ row_nulls r.
Proof. unfold row_nulls, isnull. repeat case_match; lia. Qed.

Lemma null_count_0 df : null_count df = 0 ↔ Forall (λ r, row_nulls r = 0) df.
Proof.
  induction df as [|r df IH]; simpl.
  - split; [constructor|done].
  - rewrite Forall_cons, <-IH.
    pose proof (row_nulls_nonneg r). pose proof (null_count_nonneg df). lia.
Qed.

Lemma dropna_no_nulls df : Forall (λ r, row_nulls r = 0) (dropna df).
Proof.
  apply Forall_forall. intros r Hr.
  by apply list_elem_of_filter in Hr as [? _].
Qed.

Lemma dropna_id df : null_count df = 0 → dropna df = df.
Proof.
  rewrite null_count_0. unfold dropna.
  induction 1 as [|r df Hr _ IH]; [done|].
  by rewrite filter_cons_True, IH.
Qed.

Lemma row_nulls_strip r : row_nulls (strip_text_cols r) = row_nulls r.
Proof. destruct r as [[] [] [] [] [] [] [] [] [] []]; reflexivity. Qed.

(** *** Column types and the strip loop *)

Lemma dtype_object s : dtype s = object ↔ s = [] ∨ Exists is_Some s.
Proof.
  destruct s as [|c s]; simpl; [naive_solver|].
  case_bool_decide; naive_solver.
Qed.

Lemma text_typed_dtype df :
  text_typed df ↔
  Forall (λ col, dtype (getitem col <$> df) = object) text_cols.
Proof.
  unfold text_typed. destruct df as [|r df].
  - split; [|by left]. intros _. by repeat constructor.
  - split.
    + intros [?|H]; [done|]. eapply Forall_impl; [exact H|].
      intros col Hcol. apply dtype_object. right. by apply Exists_fmap.
    + intros H. right. eapply Forall_impl; [exact H|].
      intros col Hcol. apply dtype_object in Hcol as [Hnil|Hcol].
      * by apply fmap_nil_inv in Hnil.
      * rewrite Exists_fmap in Hcol. exact Hcol.
Qed.

(** A frame without nulls is text-typed. *)
Lemma null_free_text_typed df : null_count df = 0 → text_typed df.
Proof.
  intros H0%null_count_0. destruct df as [|r df]; [by left|]. right.
  apply Forall_cons in H0 as [Hr _].
  destruct r as [[] [] [] [] [] [] [] [] [] []]; try done.
  repeat constructor; simpl; eauto.
Qed.

Lemma assign_fmap col (f : option string → option string) df :
  assign col (f <$> (getitem col <$> df)) df
  = (λ r, setitem col (f (getitem col r)) r) <$> df.
Proof.
  unfold assign. induction df as [|r df IH]; [done|].
  csimpl. by rewrite IH.
Qed.

(** On text-typed columns the loop strips the six text cells of every row. *)
Lemma strip_columns_object dtypes df :
  Forall (λ col, dtypes col = object) text_cols →
  strip_columns dtypes text_cols df = Ok (strip_text_cols <$> df).
Proof.
  unfold text_cols. intros H. cbn [strip_columns].
  repeat (apply Forall_cons in H as [-> H]). cbn [str_strip].
  rewrite !assign_fmap, <-!list_fmap_compose. f_equal.
  apply list_fmap_ext. intros i r _. by destruct r.
Qed.

(** A column that is not text-typed stops the loop. *)
Lemma strip_columns_float64 dtypes cols df :
  ¬ Forall (λ col, dtypes col = object) cols →
  strip_columns dtypes cols df = Raise AttributeError.
Proof.
  revert df. induction cols as [|col cols IH]; intros df Hnot.
  - destruct Hnot. constructor.
  - cbn [strip_columns]. destruct (dtypes col) eqn:Hcol; [|done].
    cbn [str_strip]. apply IH. contradict Hnot. by constructor.
Qed.

Lemma isnull_nonneg {A} (c : option A) : 0 ≤ isnull c.
Proof. by destruct c. Qed.

Lemma text_col_null col r :
  col ∈ text_cols → getitem col r = None → row_nulls r ≠ 0.
Proof.
  unfold text_cols. intros Hcol. destruct r as [a b c d e f g h i j].
  pose proof (isnull_nonneg a). pose proof (isnull_nonneg b).
  pose proof (isnull_nonneg c). pose proof (isnull_nonneg d).
  pose proof (isnull_nonneg e). pose proof (isnull_nonneg f).
  pose proof (isnull_nonneg g). pose proof (isnull_nonneg h).
  pose proof (isnull_nonneg i). pose proof (isnull_nonneg j).
  repeat (apply elem_of_cons in Hcol as [->|Hcol]);
    [..|by apply elem_of_nil in Hcol];
    simpl; intros ->; unfold row_nulls; simpl; lia.
Qed.

(** In a frame that is not text-typed every row holds a null. *)
Lemma not_text_typed df :
  ¬ text_typed df → df ≠ [] ∧ Forall (λ r, row_nulls r ≠ 0) df.
Proof.
  intros Hnot. split; [intros ->; apply Hnot; by left|].
  assert (¬ Forall (λ col, Exists (λ r, is_Some (getitem col r)) df) text_cols)
    as Hcols by (contradict Hnot; by right).
  apply not_Forall_Exists in Hcols; [|apply _].
  apply Exists_exists in Hcols as (col & Hcol & Hnone).
  apply Forall_forall. intros r Hr. apply (text_col_null col); [done|].
  destruct (getitem col r) eqn:Hget; [|done].
  destruct Hnone. apply Exists_exists. exists r. by rewrite Hget.
Qed.

Lemma dropna_all_null df : Forall (λ r, row_nulls r ≠ 0) df → dropna df = [].
Proof.
  unfold dropna. induction 1 as [|r df Hr _ IH]; [done|].
  by rewrite filter_cons_False.
Qed.

Lemma null_count_pos df :
  df ≠ [] → Forall (λ r, row_nulls r ≠ 0) df → 0 < null_count df.
Proof.
  intros Hne Hall. pose proof (null_count_nonneg df) as Hge.
  destruct (decide (null_count df = 0)) as [H0|]; [|lia].
  apply null_count_0 in H0. destruct df as [|r df]; [done|].
  apply Forall_cons in H0 as [? _]. by apply Forall_cons in Hall as [? _].
Qed.

(** What [handle_data_quality] returns and prints on a text-typed frame. *)
Lemma handle_data_quality_returns df :
  text_typed df →
  ∃ log, returns (handle_data_quality df) (strip_text_cols <$> dropna df) log.
Proof.
  intros Ht%text_typed_dtype. unfold handle_data_quality. cbv zeta.
  case_decide as Hn.
  - eexists. eapply returns_bind; [returns_steps|cbv beta].
    rewrite strip_columns_object by done. returns_steps.
  - assert (null_count df = 0) as H0.
    { pose proof (null_count_nonneg df). lia. }
    rewrite (dropna_id _ H0).
    eexists. eapply returns_bind; [returns_steps|cbv beta].
    rewrite strip_columns_object by done. returns_steps.
Qed.

(** On a frame that is not text-typed every row is dropped, and the loop
    raises at the first column that holds no text. *)
Lemma handle_data_quality_raises df :
  ¬ text_typed df →
  raises (handle_data_quality df) AttributeError
    [DroppedNulls (Z.of_nat (length df))].
Proof.
  intros Hnot. destruct (not_text_typed df Hnot) as [Hne Hall].
  rewrite text_typed_dtype in Hnot.
  unfold handle_data_quality. cbv zeta.
  rewrite (dropna_all_null df Hall).
  destruct (decide (0 < null_count df)) as [_|Hn];
    [|destruct Hn; by apply null_count_pos].
  replace (Z.of_nat (length df) - Z.of_nat (length (@nil Raw.Row)))
    with (Z.of_nat (length df)) by (simpl; lia).
  eapply returns_raises_bind_eq; [returns_steps|cbv beta|reflexivity].
  rewrite strip_columns_float64 by done. apply raises_bind, raises_lift.
Qed.

Lemma handle_data_quality_no_nulls df :
  Forall (λ r, row_nulls r = 0) (strip_text_cols <$> dropna df).
Proof.
  apply Forall_fmap. eapply Forall_impl; [apply dropna_no_nulls|].
  intros r Hr. simpl. by rewrite row_nulls_strip.
Qed.

Lemma typed_row_Some r :
  row_nulls r = 0 → ∃ r', typed_row r = Some r' ∧ untyped_row r' = r.
Proof.
  destruct r as [[] [] [] [] [] [] [] [] [] []]; try done.
  intros _. eexists. split; reflexivity.
Qed.

(** The typed view loses nothing of a frame without nulls. *)
Lemma typed_lossless df :
  Forall (λ r, row_nulls r = 0) df → untyped_row <$> typed df = df.
Proof.
  induction 1 as [|r df Hr _ IH]; [done|].
  destruct (typed_row_Some r Hr) as (r' & Hr' & Hu).
  unfold typed in *. cbn [omap list_omap]. rewrite Hr'.
  cbn [fmap list_fmap]. by rewrite IH, Hu.
Qed.

Lemma typed_handle_data_quality df :
  untyped_row <$> typed (strip_text_cols <$> dropna df)
  = strip_text_cols <$> dropna df.
Proof. apply typed_lossless, handle_data_quality_no_nulls. Qed.

(** ** Deduplication and first occurrences *)

(** A sorted list stays sorted under a relation that is weaker on its
    elements. *)
Lemma StronglySorted_mono_on {A} (R1 R2 : relation A) (P : A → Prop) l :
  (∀ x y, P x → P y → R1 x y → R2 x y) →
  Forall P l → StronglySorted R1 l → StronglySorted R2 l.
Proof.
  intros HR HP Hl. induction Hl as [|x l Hl IH Hx]; [constructor|].
  apply Forall_cons in HP as [Hpx HP]. constructor; [by apply IH|].
  rewrite Forall_forall in Hx, HP |- *. intros y Hy. apply HR; auto.
Qed.

Section drop_duplicates.
Context `{EqDecision A}.
Implicit Types (x y : A) (l seen : list A).

Lemma first_index_Some x l i :
  first_index x l = Some i →
  l !! i = Some x ∧ ∀ j, (j < i)%nat → l !! j ≠ Some x.
Proof.
  revert i. induction l as [|y l IH]; intros i; simpl; [done|].
  case_decide as Hxy.
  - intros [= <-]. subst. split; [done|]. lia.
  - destruct (first_index x l) as [k|] eqn:Hk; [|done].
    intros [= <-]. destruct (IH k eq_refl) as [Hl Hmin].
    split; [done|]. intros [|j] Hj; simpl; [congruence|].
    apply Hmin. lia.
Qed.

Lemma first_index_is_Some x l : is_Some (first_index x l) ↔ x ∈ l.
Proof.
  induction l as [|y l IH]; simpl.
  - rewrite elem_of_nil. split; [by intros [? ?]|done].
  - case_decide as Hxy.
    + subst. split; [intros _; left|eauto].
    + rewrite fmap_is_Some, IH, elem_of_cons. naive_solver.
Qed.

Lemma first_index_None x l : first_index x l = None ↔ x ∉ l.
Proof.
  rewrite <-first_index_is_Some, eq_None_not_Some. done.
Qed.

(** In a list without repetition, the first occurrence is the only one. *)
Lemma first_index_lookup x l i :
  NoDup l → l !! i = Some x → first_index x l = Some i.
Proof.
  intros Hnd Hi.
  assert (is_Some (first_index x l)) as [j Hj].
  { apply first_index_is_Some. by eapply list_elem_of_lookup_2. }
  destruct (first_index_Some _ _ _ Hj) as [Hlj _].
  by rewrite (NoDup_lookup l i j x Hnd Hi Hlj).
Qed.

Lemma elem_of_drop_duplicates_from x seen l :
  x ∈ drop_duplicates_from seen l ↔ x ∈ l ∧ x ∉ seen.
Proof.
  revert seen. induction l as [|y l IH]; intros seen; simpl.
  - rewrite elem_of_nil. naive_solver.
  - case_decide as Hy.
    + rewrite IH, elem_of_cons. naive_solver.
    + rewrite elem_of_cons, IH, !elem_of_cons.
      destruct (decide (x = y)); naive_solver.
Qed.

Lemma elem_of_drop_duplicates x l : x ∈ drop_duplicates l ↔ x ∈ l.
Proof.
  unfold drop_duplicates. rewrite elem_of_drop_duplicates_from.
  rewrite elem_of_nil. naive_solver.
Qed.

Lemma NoDup_drop_duplicates_from seen l :
  NoDup (drop_duplicates_from seen l).
Proof.
  revert seen. induction l as [|y l IH]; intros seen; simpl.
  - constructor.
  - case_decide; [done|]. constructor; [|done].
    rewrite elem_of_drop_duplicates_from, not_elem_of_cons. naive_solver.
Qed.

Lemma NoDup_drop_duplicates l : NoDup (drop_duplicates l).
Proof. apply NoDup_drop_duplicates_from. Qed.

Lemma first_before_cons_ne z l x y :
  x ≠ z → y ≠ z → first_before l x y → first_before (z :: l) x y.
Proof.
  intros Hx Hy (i & j & Hi & Hj & Hij). exists (S i), (S j). simpl.
  rewrite !decide_False, Hi, Hj by done. split_and!; [done..|lia].
Qed.

Lemma first_before_head z l y :
  y ≠ z → y ∈ l → first_before (z :: l) z y.
Proof.
  intros Hy [j Hj]%first_index_is_Some. exists O, (S j). simpl.
  rewrite decide_True, decide_False, Hj by done. split_and!; [done..|lia].
Qed.

(** Survivors of [drop_duplicates] stand in the order of their first
    occurrences. *)
Lemma drop_duplicates_from_first_before seen l :
  StronglySorted (first_before l) (drop_duplicates_from seen l).
Proof.
  revert seen. induction l as [|z l IH]; intros seen; simpl.
  - constructor.
  - assert (∀ seen', z ∈ seen' →
      StronglySorted (first_before (z :: l)) (drop_duplicates_from seen' l))
      as Hmono.
    { intros seen' Hz.
      eapply (StronglySorted_mono_on _ _ (λ x, x ≠ z)); [|..|apply IH].
      - intros x y ???. by apply first_before_cons_ne.
      - apply Forall_forall. intros x Hx.
        apply elem_of_drop_duplicates_from in Hx as [_ Hx]. congruence. }
    case_decide as Hz.
    + by apply Hmono.
    + constructor; [apply Hmono; left|].
      apply Forall_forall. intros y Hy.
      apply elem_of_drop_duplicates_from in Hy as [Hyl Hy].
      apply not_elem_of_cons in Hy as [Hyz _].
      by apply first_before_head.
Qed.

Lemma drop_duplicates_first_before l :
  StronglySorted (first_before l) (drop_duplicates l).
Proof. apply drop_duplicates_from_first_before. Qed.
End drop_duplicates.

(** The number of distinct values of a column is the length of its
    deduplicated form. *)
Lemma size_distinct `{Countable A} (l : list A) :
  size (list_to_set (C:=gset A) l) = length (drop_duplicates l).
Proof.
  rewrite <-(size_list_to_set (C:=gset A) (drop_duplicates l))
    by apply NoDup_drop_duplicates.
  f_equal. apply set_eq. intros x.
  by rewrite !elem_of_list_to_set, elem_of_drop_duplicates.
Qed.

(** ** Surrogate keys *)

Section keys.
Context {A : Type}.
Implicit Types l : list A.

(** The entry at position [i] carries the key [i + 1]. *)
Lemma lookup_index_add_reset_index l i :
  index_add 1 (reset_index l) !! i = (λ x, (Z.of_nat i + 1, x)) <$> l !! i.
Proof.
  unfold index_add, reset_index.
  rewrite list_lookup_fmap, list_lookup_imap. by destruct (l !! i).
Qed.

End keys.

(** The keys 1, ..., k are pairwise distinct and leave no gap. *)
Lemma seqZ_dense k : NoDup (seqZ 1 k) ∧ ∀ z, z ∈ seqZ 1 k ↔ 1 ≤ z ≤ k.
Proof.
  split; [apply NoDup_seqZ|]. intros z. rewrite elem_of_seqZ. lia.
Qed.

(** ** Sorting *)

Section sorting.
Context {A : Type} (R : relation A) `{!RelDecision R}.
Context `{!PartialOrder R, !Total R}.

Lemma elem_of_merge_sort x l : x ∈ merge_sort R l ↔ x ∈ l.
Proof. by rewrite merge_sort_Permutation. Qed.

Lemma NoDup_merge_sort l : NoDup (merge_sort R l) ↔ NoDup l.
Proof. by rewrite merge_sort_Permutation. Qed.

Lemma length_merge_sort l : length (merge_sort R l) = length l.
Proof. by rewrite merge_sort_Permutation. Qed.

Lemma StronglySorted_strict l :
  NoDup l → StronglySorted R l → StronglySorted (strict R) l.
Proof.
  intros Hnd Hl. induction Hl as [|x l Hl IH Hx]; [constructor|].
  apply NoDup_cons in Hnd as [Hxl Hnd]. constructor; [by apply IH|].
  rewrite Forall_forall in Hx |- *. intros y Hy. split; [by apply Hx|].
  intros Hyx. assert (x = y) as -> by (apply (anti_symm R); auto).
  contradiction.
Qed.

(** Sorting distinct values puts them in strictly ascending order. *)
Lemma merge_sort_strict l :
  NoDup l → StronglySorted (strict R) (merge_sort R l).
Proof.
  intros Hnd. apply StronglySorted_strict; [by apply NoDup_merge_sort|].
  apply StronglySorted_merge_sort; apply _.
Qed.
End sorting.

(** ** The order of timestamps *)

Ltac timestamp_cases :=
  unfold timestamp_le, timestamp_lt, timestamp_compare; simpl;
  repeat match goal with
         | |- context [(?a ?= ?b)%N] => destruct (N.compare_spec a b)
         end;
  subst; try done; try lia.

Global Instance timestamp_le_po : PartialOrder timestamp_le.
Proof.
  split; [split|].
  - intros [y m d n]. timestamp_cases.
  - intros [y1 m1 d1 n1] [y2 m2 d2 n2] [y3 m3 d3 n3]. timestamp_cases.
  - intros [y1 m1 d1 n1] [y2 m2 d2 n2]. timestamp_cases.
Qed.

Global Instance timestamp_le_total : Total timestamp_le.
Proof. intros [y1 m1 d1 n1] [y2 m2 d2 n2]. timestamp_cases; auto. Qed.

Lemma strict_timestamp_le t1 t2 :
  strict timestamp_le t1 t2 ↔ timestamp_lt t1 t2.
Proof.
  unfold strict. destruct t1 as [y1 m1 d1 n1], t2 as [y2 m2 d2 n2].
  timestamp_cases; naive_solver.
Qed.

(** [timestamp_lt] read on the fields: an earlier calendar date, or the same
    date and an earlier time of day. *)
Lemma timestamp_lt_spec t1 t2 :
  timestamp_lt t1 t2 ↔
    (dt_year t1 < dt_year t2
     ∨ dt_year t1 = dt_year t2 ∧
       (dt_month t1 < dt_month t2
        ∨ dt_month t1 = dt_month t2 ∧
          (dt_day t1 < dt_day t2
           ∨ dt_day t1 = dt_day t2 ∧ dt_time t1 < dt_time t2)))%N.
Proof.
  destruct t1 as [y1 m1 d1 n1], t2 as [y2 m2 d2 n2].
  timestamp_cases; split; intros ?; first [done | lia].
Qed.

(** ** [strftime] tells calendar dates apart *)

Lemma pretty_N_char_no_dash x : pretty_N_char x ≠ "-"%char.
Proof. unfold pretty_N_char. by repeat case_match. Qed.

Lemma pretty_N_char_nonzero x : (0 < x < 10)%N → pretty_N_char x ≠ "0"%char.
Proof.
  intros Hx.
  assert (x = 1 ∨ x = 2 ∨ x = 3 ∨ x = 4 ∨ x = 5 ∨ x = 6
          ∨ x = 7 ∨ x = 8 ∨ x = 9)%N by lia.
  naive_solver.
Qed.

Lemma pretty_N_go_no_dash x s : no_dash s → no_dash (pretty_N_go x s).
Proof.
  revert s. induction (N.lt_wf_0 x) as [x _ IH]; intros s Hs.
  assert (x = 0 ∨ 0 < x)%N as [->|?] by lia.
  - by rewrite pretty_N_go_0.
  - rewrite pretty_N_go_step by done. apply IH; [by apply N.div_lt|].
    split; [apply pretty_N_char_no_dash|done].
Qed.

Lemma pretty_N_go_head x s :
  (0 < x)%N → ∃ c t, pretty_N_go x s = String c t ∧ c ≠ "0"%char.
Proof.
  revert s. induction (N.lt_wf_0 x) as [x _ IH]; intros s Hx.
  rewrite pretty_N_go_step by done.
  destruct (N.eq_0_gt_0_cases (x `div` 10)) as [H0|?].
  - rewrite H0, pretty_N_go_0. eexists _, _. split; [done|].
    apply N.div_small_iff in H0; [|done].
    rewrite N.mod_small by done. apply pretty_N_char_nonzero. lia.
  - apply IH; [by apply N.div_lt|done].
Qed.

Lemma pretty_N_no_dash (x : N) : no_dash (pretty x).
Proof.
  unfold pretty, pretty_N. case_decide; [by split|].
  by apply pretty_N_go_no_dash.
Qed.

Lemma lstrip_zeros_pretty (x : N) :
  lstrip_zeros (pretty x) = if decide (x = 0%N) then EmptyString else pretty x.
Proof.
  unfold pretty, pretty_N. case_decide as Hx; [done|].
  destruct (pretty_N_go_head x "") as (c & t & -> & Hc); [lia|].
  cbn [lstrip_zeros]. by destruct (decide (c = "0"%char)).
Qed.

Lemma lstrip_zeros_zeros k s : lstrip_zeros (zeros k +:+ s) = lstrip_zeros s.
Proof.
  induction k as [|k IH]; [done|].
  cbn [zeros String.app lstrip_zeros].
  by destruct (decide ("0"%char = "0"%char)).
Qed.

Lemma no_dash_app s t : no_dash s → no_dash t → no_dash (s +:+ t).
Proof. induction s as [|c s IH]; simpl; [done|]. naive_solver. Qed.

Lemma no_dash_zeros k : no_dash (zeros k).
Proof. induction k; simpl; [done|]. split; [done|auto]. Qed.

Lemma no_dash_zfill w (x : N) : no_dash (zfill w (pretty x)).
Proof.
  apply no_dash_app; [apply no_dash_zeros|apply pretty_N_no_dash].
Qed.

(** Padding keeps the number readable: two padded renderings agree only for
    the same number. *)
Lemma zfill_pretty_inj w w' (x y : N) :
  zfill w (pretty x) = zfill w' (pretty y) → x = y.
Proof.
  intros Heq. apply (f_equal lstrip_zeros) in Heq. unfold zfill in Heq.
  rewrite !lstrip_zeros_zeros, !lstrip_zeros_pretty in Heq.
  repeat case_decide; subst; try done.
  - destruct (pretty_N_go_head y "") as (c & t & Hy & _); [lia|].
    unfold pretty, pretty_N in Heq. rewrite decide_False, Hy in Heq; done.
  - destruct (pretty_N_go_head x "") as (c & t & Hx & _); [lia|].
    unfold pretty, pretty_N in Heq. rewrite decide_False, Hx in Heq; done.
  - by apply (inj pretty).
Qed.

(** A text is cut at its first dash in one way only. *)
Lemma split_at_dash s1 s2 t1 t2 :
  no_dash s1 → no_dash s2 →
  s1 +:+ String "-" t1 = s2 +:+ String "-" t2 → s1 = s2 ∧ t1 = t2.
Proof.
  revert s2. induction s1 as [|c s1 IH]; intros [|c' s2]; simpl.
  - by intros _ _ [= ->].
  - intros _ [Hc _] [= ? _]. by subst.
  - intros [Hc _] _ [= ? _]. by subst.
  - intros [_ H1] [_ H2] [= -> Heq]. by destruct (IH s2 H1 H2 Heq) as [-> ->].
Qed.

(** Two timestamps are rendered alike exactly when they fall on the same
    calendar date: the time of day is not rendered. *)
Lemma strftime_date t1 t2 : strftime t1 = strftime t2 ↔ dt_date t1 = dt_date t2.
Proof.
  destruct t1 as [y1 m1 d1 n1], t2 as [y2 m2 d2 n2].
  unfold strftime, dt_date. simpl. split.
  - intros Heq.
    apply split_at_dash in Heq as [Hy Heq]; [|apply no_dash_zfill..].
    apply split_at_dash in Heq as [Hm Hd]; [|apply no_dash_zfill..].
    by rewrite (zfill_pretty_inj _ _ _ _ Hy), (zfill_pretty_inj _ _ _ _ Hm),
      (zfill_pretty_inj _ _ _ _ Hd).
  - by intros [= -> -> ->].
Qed.

(** ** Lookups in a dimension *)

Section lookups.
Context `{EqDecision K}.
Implicit Types (mapper : list (K * Z)) (arr : list K).

Lemma map_values_Ok arr mapper :
  NoDup mapper.*1 → map_values arr mapper = Ok (resolve mapper <$> arr).
Proof.
  intros Hnd. unfold map_values, get_indexer, take_nd.
  rewrite decide_True by done. by rewrite <-list_fmap_compose.
Qed.

Lemma map_values_Raise arr mapper :
  ¬ NoDup mapper.*1 → map_values arr mapper = Raise InvalidIndexError.
Proof.
  intros Hnd. unfold map_values, get_indexer. by rewrite decide_False.
Qed.

Lemma resolve_None mapper x : resolve mapper x = None ↔ x ∉ mapper.*1.
Proof.
  unfold resolve. rewrite <-first_index_None.
  destruct (first_index x mapper.*1) as [i|] eqn:Hi; simpl; [|done].
  apply first_index_Some in Hi as [Hi _].
  apply lookup_lt_Some in Hi. rewrite length_fmap in Hi.
  destruct (lookup_lt_is_Some_2 mapper.*2 i) as [v Hv].
  { by rewrite length_fmap. }
  rewrite Hv. done.
Qed.

Lemma resolve_Some mapper x v :
  NoDup mapper.*1 → resolve mapper x = Some v ↔ (x, v) ∈ mapper.
Proof.
  intros Hnd. unfold resolve. split.
  - destruct (first_index x mapper.*1) as [i|] eqn:Hi; [|done].
    apply first_index_Some in Hi as [Hi _]. intros Hv.
    change (mapper.*2 !! i = Some v) in Hv.
    rewrite list_lookup_fmap in Hi. rewrite list_lookup_fmap in Hv.
    destruct (mapper !! i) as [[x' v']|] eqn:Hm; simplify_eq/=.
    by eapply list_elem_of_lookup_2.
  - intros [i Hi]%list_elem_of_lookup_1.
    rewrite (first_index_lookup x mapper.*1 i); [|done|].
    + simpl. by rewrite list_lookup_fmap, Hi.
    + by rewrite list_lookup_fmap, Hi.
Qed.

Lemma cell_fmap (f : K → option Z) arr i x :
  arr !! i = Some x → cell (f <$> arr) i = f x.
Proof. intros Hi. unfold cell. by rewrite list_lookup_fmap, Hi. Qed.

Lemma isnull_sum_resolve mapper keys :
  isnull_sum (resolve mapper <$> keys) = unresolved keys mapper.*1.
Proof.
  unfold unresolved. induction keys as [|k keys IH]; [done|].
  cbn [fmap list_fmap isnull_sum foldr].
  fold (isnull_sum (resolve mapper <$> keys)).
  rewrite IH. destruct (resolve mapper k) as [v|] eqn:Hk; simpl.
  - rewrite filter_cons_False; [done|].
    intros Hn. apply resolve_None in Hn. congruence.
  - rewrite filter_cons_True by (by apply resolve_None). simpl. lia.
Qed.
End lookups.

(** ** The tables the builders return *)

Section with_keys.
Context {A B : Type} (mk : Z → A → B).
Implicit Types l : list A.

Lemma with_keys_alt l :
  (λ e, mk e.1 e.2) <$> index_add 1 (reset_index l) = with_keys mk l.
Proof.
  apply list_eq. intros i. unfold with_keys.
  rewrite list_lookup_fmap, lookup_index_add_reset_index, list_lookup_imap.
  by destruct (l !! i).
Qed.

Lemma length_with_keys l : length (with_keys mk l) = length l.
Proof. apply length_imap. Qed.

Lemma lookup_with_keys l i :
  with_keys mk l !! i = mk (Z.of_nat i + 1) <$> l !! i.
Proof. unfold with_keys. by rewrite list_lookup_imap. Qed.

Lemma fmap_with_keys_key (key : B → Z) l :
  (∀ k x, key (mk k x) = k) →
  key <$> with_keys mk l = seqZ 1 (Z.of_nat (length l)).
Proof.
  intros Hkey. apply list_eq. intros i.
  rewrite list_lookup_fmap, lookup_with_keys.
  destruct (l !! i) as [x|] eqn:Hi; simpl.
  - rewrite Hkey. symmetry. apply lookup_seqZ.
    apply lookup_lt_Some in Hi. lia.
  - symmetry. apply lookup_seqZ_ge. apply lookup_ge_None in Hi. lia.
Qed.

Lemma fmap_with_keys_value {C} (val : B → C) (f : A → C) l :
  (∀ k x, val (mk k x) = f x) → val <$> with_keys mk l = f <$> l.
Proof.
  intros Hval. apply list_eq. intros i.
  rewrite !list_lookup_fmap, lookup_with_keys.
  destruct (l !! i); simpl; by rewrite ?Hval.
Qed.
End with_keys.

Lemma create_dim_candidate_returns df :
  returns (create_dim_candidate df) (with_keys candidate_row (candidates df))
    [Records "DIM_CANDIDATE" (Z.of_nat (length (candidates df)))].
Proof.
  unfold create_dim_candidate.
  rewrite (with_keys_alt candidate_row), length_with_keys. returns_steps.
Qed.

Lemma create_dim_date_returns df :
  returns (create_dim_date df) (with_keys date_row (dates df))
    [Records "DIM_DATE" (Z.of_nat (length (dates df)))].
Proof.
  unfold create_dim_date.
  set (ds := sort_values_date _). change (dates df) with ds.
  assert ((λ e, mkDimDate e.1 e.2.1.1.1 e.2.1.1.2 e.2.1.2 e.2.2) <$>
            index_add 1
              ((λ e, (e.1, (strftime e.2, Z.of_N (dt_year e.2),
                            Z.of_N (dt_month e.2),
                            quarter_of_month (Z.of_N (dt_month e.2))))) <$>
                 reset_index ds)
          = with_keys date_row ds) as ->.
  { apply list_eq. intros i. unfold index_add, reset_index.
    rewrite !list_lookup_fmap, list_lookup_imap, lookup_with_keys.
    by destruct (ds !! i). }
  rewrite length_with_keys. returns_steps.
Qed.

Lemma create_dim_country_returns df :
  returns (create_dim_country df) (with_keys mkDimCountry (labels Country df))
    [Records "DIM_COUNTRY" (Z.of_nat (length (labels Country df)))].
Proof.
  unfold create_dim_country.
  rewrite (with_keys_alt mkDimCountry), length_with_keys. returns_steps.
Qed.

Lemma create_dim_seniority_returns df :
  returns (create_dim_seniority df)
    (with_keys mkDimSeniority (labels Seniority df))
    [Records "DIM_SENIORITY" (Z.of_nat (length (labels Seniority df)))].
Proof.
  unfold create_dim_seniority.
  rewrite (with_keys_alt mkDimSeniority), length_with_keys. returns_steps.
Qed.

Lemma create_dim_technology_returns df :
  returns (create_dim_technology df)
    (with_keys mkDimTechnology (labels Technology df))
    [Records "DIM_TECHNOLOGY" (Z.of_nat (length (labels Technology df)))].
Proof.
  unfold create_dim_technology.
  rewrite (with_keys_alt mkDimTechnology), length_with_keys. returns_steps.
Qed.

(** ** The fact table over dimensions without repeated natural keys *)

Section fact.
Context (df : list HiredRow).
Context (dc : list DimCandidate) (dd : list DimDate) (dco : list DimCountry)
  (ds : list DimSeniority) (dt : list DimTechnology).

Lemma candidate_map_index :
  (candidate_map dc).*1 = (λ d, (first_name d, last_name d, email d)) <$> dc.
Proof. unfold candidate_map. by rewrite <-list_fmap_compose. Qed.
Lemma date_map_index : (date_map dd).*1 = full_date <$> dd.
Proof. unfold date_map. by rewrite <-list_fmap_compose. Qed.
Lemma country_map_index : (country_map dco).*1 = country_name <$> dco.
Proof. unfold country_map. by rewrite <-list_fmap_compose. Qed.
Lemma seniority_map_index : (seniority_map ds).*1 = seniority_level <$> ds.
Proof. unfold seniority_map. by rewrite <-list_fmap_compose. Qed.
Lemma tech_map_index : (tech_map dt).*1 = technology_name <$> dt.
Proof. unfold tech_map. by rewrite <-list_fmap_compose. Qed.

Lemma bind_lift_Ok {A B} (a : A) (f : A → Py B) : (lift (Ok a) ≫= f) = f a.
Proof. reflexivity. Qed.

Lemma create_fact_table_returns :
  unique_natural_keys dc dd dco ds dt →
  returns (create_fact_table df dc dd dco ds dt)
    (fact_rows df dc dd dco ds dt)
    [integrity_report (fact_rows df dc dd dco ds dt);
     Records "FACT_APPLICATIONS" (Z.of_nat (length df))].
Proof.
  intros (Hc & Hd & Hco & Hs & Ht).
  rewrite <-candidate_map_index in Hc. rewrite <-date_map_index in Hd.
  rewrite <-country_map_index in Hco. rewrite <-seniority_map_index in Hs.
  rewrite <-tech_map_index in Ht. unfold create_fact_table.
  rewrite !map_values_Ok, !bind_lift_Ok by done. cbv zeta.
  match goal with
  | |- context [imap ?f df] =>
      assert (imap f df = fact_rows df dc dd dco ds dt) as ->
  end.
  { apply imap_ext. intros i r Hi. unfold fact_row. cbv beta.
    f_equal; apply cell_fmap; by rewrite list_lookup_fmap, Hi. }
  assert (length (fact_rows df dc dd dco ds dt) = length df) as ->.
  { unfold fact_rows. apply length_imap. }
  unfold integrity_report. case_decide; returns_steps.
Qed.

(** A repeated natural key in a dimension makes the lookup raise. *)
Lemma create_fact_table_raises out :
  ¬ unique_natural_keys dc dd dco ds dt →
  create_fact_table df dc dd dco ds dt out = (Raise InvalidIndexError, out).
Proof.
  intros Hnot. unfold create_fact_table.
  destruct (decide (NoDup (candidate_map dc).*1)) as [Hc|Hc];
    [rewrite (map_values_Ok _ _ Hc), bind_lift_Ok
    |by rewrite (map_values_Raise _ _ Hc)].
  destruct (decide (NoDup (date_map dd).*1)) as [Hd|Hd];
    [rewrite (map_values_Ok _ _ Hd), bind_lift_Ok
    |by rewrite (map_values_Raise _ _ Hd)].
  destruct (decide (NoDup (country_map dco).*1)) as [Hco|Hco];
    [rewrite (map_values_Ok _ _ Hco), bind_lift_Ok
    |by rewrite (map_values_Raise _ _ Hco)].
  destruct (decide (NoDup (seniority_map ds).*1)) as [Hs|Hs];
    [rewrite (map_values_Ok _ _ Hs), bind_lift_Ok
    |by rewrite (map_values_Raise _ _ Hs)].
  destruct (decide (NoDup (tech_map dt).*1)) as [Ht|Ht];
    [|by rewrite (map_values_Raise _ _ Ht)].
  destruct Hnot. unfold unique_natural_keys.
  by rewrite <-candidate_map_index, <-date_map_index, <-country_map_index,
    <-seniority_map_index, <-tech_map_index.
Qed.

Lemma length_fact_rows :
  length (fact_rows df dc dd dco ds dt) = length df.
Proof. apply length_imap. Qed.

Lemma lookup_fact_rows i :
  fact_rows df dc dd dco ds dt !! i = fact_row dc dd dco ds dt i <$> df !! i.
Proof. apply list_lookup_imap. Qed.

Lemma fact_rows_column {C} (col : Fact.Row → C) (f : HiredRow → C) :
  (∀ i r, col (fact_row dc dd dco ds dt i r) = f r) →
  col <$> fact_rows df dc dd dco ds dt = f <$> df.
Proof.
  intros Hcol. apply list_eq. intros i.
  rewrite !list_lookup_fmap, lookup_fact_rows.
  destruct (df !! i); simpl; by rewrite ?Hcol.
Qed.

Lemma application_id_fact_rows :
  Fact.application_id <$> fact_rows df dc dd dco ds dt
  = seqZ 1 (Z.of_nat (length df)).
Proof.
  apply list_eq. intros i. rewrite list_lookup_fmap, lookup_fact_rows.
  destruct (df !! i) as [r|] eqn:Hi; simpl.
  - symmetry. apply lookup_seqZ. apply lookup_lt_Some in Hi. lia.
  - symmetry. apply lookup_seqZ_ge. apply lookup_ge_None in Hi. lia.
Qed.
End fact.

(** ** Text without outer whitespace *)

Lemma lstrip_first_char s :
  (∀ c, first_char s = Some c → isspace c = false) → lstrip s = s.
Proof. destruct s as [|c s]; simpl; [done|]. intros H. by rewrite (H c). Qed.

Lemma rstrip_cons c s :
  rstrip (String c s) =
  match rstrip s with
  | EmptyString => if isspace c then EmptyString else String c EmptyString
  | t => String c t
  end.
Proof. reflexivity. Qed.

Lemma rstrip_last_char s :
  (∀ c, last_char s = Some c → isspace c = false) → rstrip s = s.
Proof.
  induction s as [|c s IH]; [done|]. intros H.
  destruct s as [|c' s].
  - simpl. by rewrite (H c).
  - rewrite (rstrip_cons c), IH by (intros c'' Hc''; by apply H). done.
Qed.

Lemma strip_trimmed s : trimmed s → strip s = s.
Proof.
  intros [Hf Hl]. unfold strip.
  by rewrite (lstrip_first_char s Hf), (rstrip_last_char s Hl).
Qed.

Lemma strip_text_cols_trimmed r :
  Forall trimmed (text_cells r) → strip_text_cols r = r.
Proof.
  destruct r as [[fn|] [ln|] [em|] ad [co|] yo [se|] [te|] cc ti];
    unfold text_cells, strip_text_cols; cbn; intros H;
    repeat (apply Forall_cons in H as [? H]);
    rewrite ?strip_trimmed by done; done.
Qed.

Lemma strip_frame_trimmed df :
  Forall (λ r, Forall trimmed (text_cells r)) df → strip_text_cols <$> df = df.
Proof.
  induction 1 as [|r df Hr _ IH]; [done|].
  cbn [fmap list_fmap]. by rewrite (strip_text_cols_trimmed r Hr), IH.
Qed.

(** * The claims *)

(** ** Values *)

Example strip_outer_whitespace : strip "  Data Engineer " = "Data Engineer".
Proof. reflexivity. Qed.

Example strftime_pads : strftime (mkTimestamp 2021 2 6 0) = "2021-02-06".
Proof. vm_compute. reflexivity. Qed.

(** The time of day is not rendered. *)
Example strftime_drops_time :
  strftime morning = "2021-02-26" ∧ strftime evening = "2021-02-26".
Proof. split; vm_compute; reflexivity. Qed.

(** Upper case sorts before lower case: the order is that of code points. *)
Example sort_values_code_points :
  sort_values_str ["b"; "a"; "Z"; "ab"] = ["Z"; "a"; "ab"; "b"].
Proof. vm_compute. reflexivity. Qed.

Example drop_duplicates_keeps_first :
  drop_duplicates [3; 1; 3; 2; 1] = [3; 1; 2].
Proof. reflexivity. Qed.

(** ** RuleEngine *)

(** C1. [apply_hiring_rule] keeps the rows and gives each the flag 1 exactly
    when both its code-challenge score and its technical-interview score are
    at least 7, and the flag 0 otherwise; scores (7, 7) give 1 and scores
    (6, 10) give 0. *)
Theorem hired_iff_both_scores_at_least_7 (df : list Row) (out : Stdout) :
  ∃ df' : list HiredRow,
    (apply_hiring_rule df out).1 = Ok df' ∧
    app <$> df' = df ∧
    Forall (λ r : HiredRow,
              (is_hired r = 1 ↔
               7 ≤ Code_Challenge_Score r ∧ 7 ≤ Technical_Interview_Score r)
              ∧ (is_hired r = 1 ∨ is_hired r = 0)) df' ∧
    (∀ fn ln em ad co yo se te,
       hiring_rule (mkRow fn ln em ad co yo se te 7 7) = 1 ∧
       hiring_rule (mkRow fn ln em ad co yo se te 6 10) = 0).
Proof.
  eexists. split_and!.
  - reflexivity.
  - rewrite <-list_fmap_compose. apply list_fmap_id.
  - apply Forall_fmap, Forall_forall. intros r _. simpl. unfold hiring_rule.
    destruct (bool_decide (7 ≤ Code_Challenge_Score r)) eqn:H1;
      destruct (bool_decide (7 ≤ Technical_Interview_Score r)) eqn:H2;
      simpl; try apply bool_decide_eq_true in H1;
      try apply bool_decide_eq_true in H2;
      try apply bool_decide_eq_false in H1;
      try apply bool_decide_eq_false in H2; split; try tauto; try lia;
      split; intros; try done; try lia.
  - done.
Qed.

(** ** Cleanser *)

(** C2, as stated, fails: a frame without nulls whose first name starts with
    a blank does not come back unchanged. *)
Lemma clean_not_identity_on_null_free :
  null_count padded_frame = 0 ∧
  ∃ df', (handle_data_quality padded_frame []).1 = Ok df' ∧
         length df' = length padded_frame ∧ df' ≠ padded_frame.
Proof. split; [reflexivity|]. eexists. split_and!; [reflexivity|done|done]. Qed.

(** C2, amended. On a frame without nulls [handle_data_quality] keeps every
    row, in order; each row comes back with its six text cells stripped of
    leading and trailing whitespace and its other cells untouched; the frame
    comes back unchanged when no text cell starts or ends with whitespace. *)
Theorem clean_null_free_strips_text (df : list Raw.Row) (out : Stdout) :
  null_count df = 0 →
  ∃ df',
    (handle_data_quality df out).1 = Ok df' ∧
    length df' = length df ∧
    (∀ i r, df !! i = Some r →
       ∃ r', df' !! i = Some r' ∧
         Raw.First_Name r' = strip <$> Raw.First_Name r ∧
         Raw.Last_Name r' = strip <$> Raw.Last_Name r ∧
         Raw.Email r' = strip <$> Raw.Email r ∧
         Raw.Country r' = strip <$> Raw.Country r ∧
         Raw.Seniority r' = strip <$> Raw.Seniority r ∧
         Raw.Technology r' = strip <$> Raw.Technology r ∧
         Raw.Application_Date r' = Raw.Application_Date r ∧
         Raw.YOE r' = Raw.YOE r ∧
         Raw.Code_Challenge_Score r' = Raw.Code_Challenge_Score r ∧
         Raw.Technical_Interview_Score r' = Raw.Technical_Interview_Score r) ∧
    (Forall (λ r, Forall trimmed (text_cells r)) df → df' = df).
Proof.
  intros Hnull.
  destruct (handle_data_quality_returns df (null_free_text_typed df Hnull))
    as [log Hrun].
  rewrite (dropna_id df Hnull) in Hrun.
  exists (strip_text_cols <$> df). split_and!.
  - by rewrite (Hrun out).
  - apply length_fmap.
  - intros i r Hi. exists (strip_text_cols r). split.
    + by rewrite list_lookup_fmap, Hi.
    + by split_and!.
  - apply strip_frame_trimmed.
Qed.

Lemma clean_null_free_strips_text_witness :
  null_count trimmed_frame = 0 ∧
  ∃ df',
    (handle_data_quality trimmed_frame []).1 = Ok df' ∧
    length df' = length trimmed_frame ∧
    (∀ i r, trimmed_frame !! i = Some r →
       ∃ r', df' !! i = Some r' ∧
         Raw.First_Name r' = strip <$> Raw.First_Name r ∧
         Raw.Last_Name r' = strip <$> Raw.Last_Name r ∧
         Raw.Email r' = strip <$> Raw.Email r ∧
         Raw.Country r' = strip <$> Raw.Country r ∧
         Raw.Seniority r' = strip <$> Raw.Seniority r ∧
         Raw.Technology r' = strip <$> Raw.Technology r ∧
         Raw.Application_Date r' = Raw.Application_Date r ∧
         Raw.YOE r' = Raw.YOE r ∧
         Raw.Code_Challenge_Score r' = Raw.Code_Challenge_Score r ∧
         Raw.Technical_Interview_Score r' = Raw.Technical_Interview_Score r) ∧
    (Forall (λ r, Forall trimmed (text_cells r)) trimmed_frame →
     df' = trimmed_frame).
Proof.
  split; [reflexivity|].
  apply (clean_null_free_strips_text trimmed_frame []). reflexivity.
Defined.

(** ** DimensionBuilder *)

Lemma StronglySorted_lookup_lt {A} (R : relation A) l i j x y :
  StronglySorted R l → l !! i = Some x → l !! j = Some y → (i < j)%nat → R x y.
Proof.
  intros Hl. revert i j. induction Hl as [|z l Hl IH Hz]; intros i j; [done|].
  destruct i as [|i], j as [|j]; simpl; try lia.
  - intros [= ->] Hj _. rewrite Forall_forall in Hz.
    apply Hz. by eapply list_elem_of_lookup_2.
  - intros Hi Hj Hij. apply (IH i j); [done..|lia].
Qed.

(** In a table keyed in list order over a strictly ordered list, a smaller
    key means an earlier natural key in the order, and conversely. *)
Lemma with_keys_order {A B} (mk : Z → A → B) (key : B → Z) (val : B → A)
    (R : relation A) (l : list A) (r1 r2 : B) :
  (∀ k x, key (mk k x) = k) → (∀ k x, val (mk k x) = x) →
  StronglySorted R l → (∀ x y, R x y → R y x → False) →
  r1 ∈ with_keys mk l → r2 ∈ with_keys mk l →
  key r1 < key r2 ↔ R (val r1) (val r2).
Proof.
  intros Hkey Hval Hl Hasym [i Hi]%list_elem_of_lookup_1
    [j Hj]%list_elem_of_lookup_1.
  rewrite lookup_with_keys in Hi, Hj.
  destruct (l !! i) as [x|] eqn:Hx; [|done].
  destruct (l !! j) as [y|] eqn:Hy; [|done].
  simplify_eq/=. rewrite !Hkey, !Hval. split.
  - intros Hij. apply (StronglySorted_lookup_lt R l i j); [done..|lia].
  - intros Hxy. destruct (decide (i < j)%nat) as [|Hge]; [lia|].
    destruct (decide (i = j)) as [->|Hne].
    + simplify_eq. destruct (Hasym _ _ Hxy Hxy).
    + destruct (Hasym _ _ Hxy).
      apply (StronglySorted_lookup_lt R l j i); [done..|lia].
Qed.

Lemma dense_seqZ keys k : keys = seqZ 1 k → dense keys k.
Proof. intros ->. split; [done|]. apply seqZ_dense. Qed.

Section built.
Context (df : list HiredRow).

Lemma NoDup_candidates : NoDup (candidates df).
Proof. apply NoDup_drop_duplicates. Qed.

Lemma NoDup_dates : NoDup (dates df).
Proof. apply NoDup_merge_sort; [apply _..|]. apply NoDup_drop_duplicates. Qed.

Lemma NoDup_labels col : NoDup (labels col df).
Proof. apply NoDup_merge_sort; [apply _..|]. apply NoDup_drop_duplicates. Qed.

Lemma elem_of_candidates t :
  t ∈ candidates df ↔ t ∈ (λ r : HiredRow, candidate_of r) <$> df.
Proof. apply elem_of_drop_duplicates. Qed.

Lemma elem_of_dates d :
  d ∈ dates df ↔ d ∈ (λ r : HiredRow, Application_Date r) <$> df.
Proof.
  unfold dates, sort_values_date.
  by rewrite elem_of_merge_sort, elem_of_drop_duplicates.
Qed.

Lemma elem_of_labels col x :
  x ∈ labels col df ↔ x ∈ (λ r : HiredRow, col r) <$> df.
Proof.
  unfold labels, sort_values_str.
  by rewrite elem_of_merge_sort, elem_of_drop_duplicates.
Qed.

Lemma length_candidates :
  Z.of_nat (length (candidates df))
  = distinct_count ((λ r : HiredRow, candidate_of r) <$> df).
Proof. unfold distinct_count. by rewrite size_distinct. Qed.

Lemma length_dates :
  Z.of_nat (length (dates df))
  = distinct_count ((λ r : HiredRow, Application_Date r) <$> df).
Proof.
  unfold distinct_count, dates, sort_values_date.
  by rewrite size_distinct, length_merge_sort.
Qed.

Lemma length_labels col :
  Z.of_nat (length (labels col df))
  = distinct_count ((λ r : HiredRow, col r) <$> df).
Proof.
  unfold distinct_count, labels, sort_values_str.
  by rewrite size_distinct, length_merge_sort.
Qed.

Lemma sorted_dates : StronglySorted timestamp_lt (dates df).
Proof.
  eapply (StronglySorted_mono_on (strict timestamp_le) _ (λ _, True)).
  - intros x y _ _. apply strict_timestamp_le.
  - by apply Forall_forall.
  - apply merge_sort_strict; [apply _..|]. apply NoDup_drop_duplicates.
Qed.

Lemma sorted_labels col : StronglySorted (strict String.le) (labels col df).
Proof. apply merge_sort_strict; [apply _..|]. apply NoDup_drop_duplicates. Qed.
End built.


Lemma with_keys_keyed_in_order {A B} (mk : Z → A → B) (key : B → Z)
    (val : B → A) (R : relation A) (col l : list A) :
  (∀ k x, key (mk k x) = k) → (∀ k x, val (mk k x) = x) →
  NoDup l → (∀ x, x ∈ l ↔ x ∈ col) →
  StronglySorted R l → (∀ x y, R x y → R y x → False) →
  keyed_in_order key val R col (with_keys mk l).
Proof.
  intros Hkey Hval Hnd Hel Hl Hasym.
  assert (val <$> with_keys mk l = l) as Hvals.
  { rewrite (fmap_with_keys_value mk val id) by done. apply list_fmap_id. }
  split_and!.
  - by rewrite Hvals.
  - intros x. by rewrite Hvals.
  - rewrite length_with_keys. by apply fmap_with_keys_key.
  - intros r1 r2. by apply with_keys_order.
Qed.

(** The order of text: code point by code point, a proper prefix first. *)
Lemma string_lt_compare s t : strict String.le s t ↔ String.compare s t = Lt.
Proof.
  unfold strict, String.le, String.leb.
  rewrite (String.compare_antisym s t).
  destruct (String.compare t s); simpl; naive_solver.
Qed.

Lemma string_lt_cons a s b t :
  strict String.le (String a s) (String b t) ↔
    (N_of_ascii a < N_of_ascii b)%N ∨ a = b ∧ strict String.le s t.
Proof.
  rewrite !string_lt_compare. simpl. unfold Ascii.compare.
  destruct (N.compare_spec (N_of_ascii a) (N_of_ascii b)) as [Heq|Hlt|Hgt].
  - assert (a = b) as ->.
    { by rewrite <-(ascii_N_embedding a), <-(ascii_N_embedding b), Heq. }
    split; [auto|]. intros [?|[_ ?]]; [lia|done].
  - split; [auto|done].
  - split; [done|]. intros [?|[-> _]]; lia.
Qed.

Lemma string_lt_nil_l t : strict String.le EmptyString t ↔ t ≠ EmptyString.
Proof. rewrite string_lt_compare. by destruct t. Qed.

Lemma string_lt_nil_r s : ¬ strict String.le s EmptyString.
Proof. rewrite string_lt_compare. by destruct s. Qed.

(** C6. The claim fails on the code for two applications filed on one
    calendar date at different times of day: [create_dim_date] deduplicates
    the timestamps, not the calendar dates, and returns two rows for the one
    date 2021-02-26, with the keys 1 and 2 and the same [full_date], where
    the claim (and the docstring: "unique application dates") has one row
    per date. *)
Theorem date_dimension_repeats_calendar_date :
  dt_date <$> ((λ r : HiredRow, Application_Date r) <$> same_day_frame)
  = [(2021, 2, 26); (2021, 2, 26)]%N ∧
  create_dim_date same_day_frame []
  = (Ok [ mkDimDate 1 "2021-02-26" 2021 2 1;
          mkDimDate 2 "2021-02-26" 2021 2 1 ],
     [Records "DIM_DATE" 2]).
Proof. split; vm_compute; reflexivity. Qed.

(** C7. The country, seniority and technology dimensions each have one row
    per distinct label of their column, keyed 1, 2, ... down the table, and
    a row has a smaller key than another exactly when its label is smaller
    in the lexicographic order of text. *)
Theorem label_dimensions_lexicographic (df : list HiredRow) (out : Stdout) :
  (∃ dim, (create_dim_country df out).1 = Ok dim ∧
     keyed_in_order country_key country_name (strict String.le)
       ((λ r : HiredRow, Country r) <$> df) dim) ∧
  (∃ dim, (create_dim_seniority df out).1 = Ok dim ∧
     keyed_in_order seniority_key seniority_level (strict String.le)
       ((λ r : HiredRow, Seniority r) <$> df) dim) ∧
  (∃ dim, (create_dim_technology df out).1 = Ok dim ∧
     keyed_in_order technology_key technology_name (strict String.le)
       ((λ r : HiredRow, Technology r) <$> df) dim).
Proof.
  split_and!; eexists.
  - rewrite (create_dim_country_returns df out). split; [done|].
    apply with_keys_keyed_in_order; try done.
    + apply NoDup_labels.
    + apply (elem_of_labels df Country).
    + apply sorted_labels.
    + intros x y [_ Hxy] [Hyx _]. done.
  - rewrite (create_dim_seniority_returns df out). split; [done|].
    apply with_keys_keyed_in_order; try done.
    + apply NoDup_labels.
    + apply (elem_of_labels df Seniority).
    + apply sorted_labels.
    + intros x y [_ Hxy] [Hyx _]. done.
  - rewrite (create_dim_technology_returns df out). split; [done|].
    apply with_keys_keyed_in_order; try done.
    + apply NoDup_labels.
    + apply (elem_of_labels df Technology).
    + apply sorted_labels.
    + intros x y [_ Hxy] [Hyx _]. done.
Qed.

(** C10. The candidate dimension has one row per distinct (first name, last
    name, email) triple of the frame, keyed 1, 2, ... down the table, and a
    row has a smaller key than another exactly when its triple first occurs
    in the frame before the other's does. *)
Theorem candidate_keys_first_occurrence (df : list HiredRow) (out : Stdout) :
  ∃ dim,
    (create_dim_candidate df out).1 = Ok dim ∧
    keyed_in_order candidate_key
      (λ d, (first_name d, last_name d, email d))
      (first_before ((λ r : HiredRow, candidate_of r) <$> df))
      ((λ r : HiredRow, candidate_of r) <$> df) dim.
Proof.
  eexists. rewrite (create_dim_candidate_returns df out). split; [done|].
  apply with_keys_keyed_in_order.
  - done.
  - by intros k [[??]?].
  - apply NoDup_candidates.
  - apply elem_of_candidates.
  - apply drop_duplicates_first_before.
  - intros x y (i & j & Hi & Hj & Hij) (j' & i' & Hj' & Hi' & Hji).
    simplify_eq. lia.
Qed.

(** ** FactBuilder *)

(** A natural key listed once in a dimension resolves to the key of the row
    that lists it. *)
Lemma resolve_row {B} `{EqDecision K} (name : B → K) (key : B → Z)
    (dim : list B) (x : K) :
  NoDup (name <$> dim) → x ∈ name <$> dim →
  ∃ d, d ∈ dim ∧ name d = x ∧
       resolve ((λ d, (name d, key d)) <$> dim) x = Some (key d).
Proof.
  intros Hnd (d & -> & Hd)%list_elem_of_fmap. exists d. split_and!; [done..|].
  apply resolve_Some.
  - by rewrite <-list_fmap_compose.
  - apply list_elem_of_fmap. by exists d.
Qed.

Lemma resolve_absent {B} `{EqDecision K} (name : B → K) (key : B → Z)
    (dim : list B) (x : K) :
  resolve ((λ d, (name d, key d)) <$> dim) x = None ↔ x ∉ name <$> dim.
Proof. rewrite resolve_None. by rewrite <-list_fmap_compose. Qed.

Lemma NoDup_fmap_elem_inj {A B} (f : A → B) (l : list A) x y :
  NoDup (f <$> l) → x ∈ l → y ∈ l → f x = f y → x = y.
Proof.
  intros Hnd [i Hi]%list_elem_of_lookup_1 [j Hj]%list_elem_of_lookup_1 Hxy.
  assert (i = j) as ->; [|congruence].
  apply (NoDup_lookup (f <$> l) i j (f x) Hnd).
  - by rewrite list_lookup_fmap, Hi.
  - by rewrite list_lookup_fmap, Hj, Hxy.
Qed.

(** A column without repetition stays so under a function exactly when the
    function tells its entries apart. *)
Lemma NoDup_fmap_inj_on {A B} (f : A → B) (l : list A) :
  NoDup l →
  NoDup (f <$> l) ↔ ∀ x y, x ∈ l → y ∈ l → f x = f y → x = y.
Proof.
  intros Hl. split.
  - intros Hnd x y. by apply NoDup_fmap_elem_inj.
  - intros Hinj. by apply NoDup_fmap_2_strong.
Qed.

Lemma one_time_per_day_spec col :
  one_time_per_day col ↔
  ∀ t1 t2, t1 ∈ col → t2 ∈ col → dt_date t1 = dt_date t2 → t1 = t2.
Proof.
  unfold one_time_per_day. split.
  - intros H t1 t2 H1 H2. rewrite Forall_forall in H.
    specialize (H t1 H1). rewrite Forall_forall in H. by apply H.
  - intros H. apply Forall_forall. intros t1 H1.
    apply Forall_forall. intros t2 H2. by apply H.
Qed.

Section built_tables.
Context (df : list HiredRow).

Lemma built_candidate_names :
  (λ d, (first_name d, last_name d, email d)) <$> built_candidate df
  = candidates df.
Proof.
  unfold built_candidate.
  rewrite (fmap_with_keys_value candidate_row _ id); [apply list_fmap_id|].
  by intros k [[??]?].
Qed.

Lemma built_date_names : full_date <$> built_date df = strftime <$> dates df.
Proof. unfold built_date. by apply fmap_with_keys_value. Qed.

(** The date dimension lists no [full_date] twice exactly when no two
    different timestamps of the frame fall on one calendar date. *)
Lemma NoDup_built_date :
  NoDup (full_date <$> built_date df) ↔
  one_time_per_day ((λ r : HiredRow, Application_Date r) <$> df).
Proof.
  rewrite built_date_names, (NoDup_fmap_inj_on strftime) by apply NoDup_dates.
  rewrite one_time_per_day_spec. split.
  - intros H t1 t2 H1 H2 Heq. apply H.
    + by apply elem_of_dates.
    + by apply elem_of_dates.
    + by apply strftime_date.
  - intros H t1 t2 H1 H2 Heq. apply H.
    + by apply elem_of_dates in H1.
    + by apply elem_of_dates in H2.
    + by apply strftime_date in Heq.
Qed.

Lemma built_country_names :
  country_name <$> built_country df = labels Country df.
Proof.
  unfold built_country.
  rewrite (fmap_with_keys_value mkDimCountry _ id); [apply list_fmap_id|done].
Qed.

Lemma built_seniority_names :
  seniority_level <$> built_seniority df = labels Seniority df.
Proof.
  unfold built_seniority.
  rewrite (fmap_with_keys_value mkDimSeniority _ id);
    [apply list_fmap_id|done].
Qed.

Lemma built_technology_names :
  technology_name <$> built_technology df = labels Technology df.
Proof.
  unfold built_technology.
  rewrite (fmap_with_keys_value mkDimTechnology _ id);
    [apply list_fmap_id|done].
Qed.

(** The dimensions built from a frame list each natural key once, unless
    two different timestamps of the frame fall on one calendar date. *)
Lemma built_unique :
  unique_natural_keys (built_candidate df) (built_date df) (built_country df)
    (built_seniority df) (built_technology df) ↔
  one_time_per_day ((λ r : HiredRow, Application_Date r) <$> df).
Proof.
  rewrite <-NoDup_built_date. unfold unique_natural_keys.
  rewrite built_candidate_names, built_country_names,
    built_seniority_names, built_technology_names.
  split; [by intros (_ & ? & _)|]. intros Hd. split_and!.
  - apply NoDup_candidates.
  - done.
  - apply NoDup_labels.
  - apply NoDup_labels.
  - apply NoDup_labels.
Qed.

(** ... and list the natural keys of every row of the frame. *)
Lemma built_covers i (r : HiredRow) :
  df !! i = Some r →
  candidate_of r ∈ (λ d, (first_name d, last_name d, email d))
                     <$> built_candidate df ∧
  strftime (Application_Date r) ∈ full_date <$> built_date df ∧
  Country r ∈ country_name <$> built_country df ∧
  Seniority r ∈ seniority_level <$> built_seniority df ∧
  Technology r ∈ technology_name <$> built_technology df.
Proof.
  intros Hi%list_elem_of_lookup_2.
  rewrite built_candidate_names, built_date_names, built_country_names,
    built_seniority_names, built_technology_names.
  split_and!.
  - apply elem_of_candidates, list_elem_of_fmap. eauto.
  - apply list_elem_of_fmap. eexists. split; [done|].
    apply elem_of_dates, list_elem_of_fmap. eauto.
  - apply (elem_of_labels df Country), list_elem_of_fmap. eauto.
  - apply (elem_of_labels df Seniority), list_elem_of_fmap. eauto.
  - apply (elem_of_labels df Technology), list_elem_of_fmap. eauto.
Qed.
End built_tables.

Global Instance unique_natural_keys_dec dc dd dco ds dt :
  Decision (unique_natural_keys dc dd dco ds dt).
Proof. unfold unique_natural_keys. apply _. Defined.

Lemma one_row_per_application_fact_rows df dc dd dco ds dt :
  one_row_per_application df (fact_rows df dc dd dco ds dt).
Proof.
  split_and!; [apply length_fact_rows|apply application_id_fact_rows|].
  intros i r Hi. eexists. rewrite lookup_fact_rows, Hi. by split_and!.
Qed.

(** C4. Build the five dimensions from a frame and the fact table from the
    frame and these dimensions. The five builders return. When the fact build
    returns a table, it has one row per row of the frame and each of the five
    foreign keys of every fact row is the surrogate key of a row of its
    dimension, namely of the row that carries the natural key of the source
    row: no foreign key is left null. The fact build returns exactly when no
    two different application timestamps of the frame fall on one calendar
    date; otherwise it raises [InvalidIndexError] and produces no fact
    row. *)
Theorem foreign_keys_resolve (df : list HiredRow)
    (o1 o2 o3 o4 o5 o6 : Stdout) :
  ∃ dc dd dco ds dt,
    (create_dim_candidate df o1).1 = Ok dc ∧
    (create_dim_date df o2).1 = Ok dd ∧
    (create_dim_country df o3).1 = Ok dco ∧
    (create_dim_seniority df o4).1 = Ok ds ∧
    (create_dim_technology df o5).1 = Ok dt ∧
    match (create_fact_table df dc dd dco ds dt o6).1 with
    | Ok fact =>
        one_time_per_day ((λ r : HiredRow, Application_Date r) <$> df) ∧
        length fact = length df ∧
        ∀ i (r : HiredRow) f, df !! i = Some r → fact !! i = Some f →
          (∃ d, d ∈ dc ∧
                (first_name d, last_name d, email d) = candidate_of r ∧
                Fact.candidate_key f = Some (candidate_key d)) ∧
          (∃ d, d ∈ dd ∧ full_date d = strftime (Application_Date r) ∧
                Fact.date_key f = Some (date_key d)) ∧
          (∃ d, d ∈ dco ∧ country_name d = Country r ∧
                Fact.country_key f = Some (country_key d)) ∧
          (∃ d, d ∈ ds ∧ seniority_level d = Seniority r ∧
                Fact.seniority_key f = Some (seniority_key d)) ∧
          (∃ d, d ∈ dt ∧ technology_name d = Technology r ∧
                Fact.technology_key f = Some (technology_key d))
    | Raise e =>
        e = InvalidIndexError ∧
        ¬ one_time_per_day ((λ r : HiredRow, Application_Date r) <$> df)
    end.
Proof.
  exists (built_candidate df), (built_date df), (built_country df),
    (built_seniority df), (built_technology df).
  rewrite (create_dim_candidate_returns df o1), (create_dim_date_returns df o2),
    (create_dim_country_returns df o3), (create_dim_seniority_returns df o4),
    (create_dim_technology_returns df o5).
  split_and!; [done..|].
  destruct (decide (one_time_per_day
                      ((λ r : HiredRow, Application_Date r) <$> df)))
    as [Hday|Hday].
  - pose proof (proj2 (built_unique df) Hday) as Hu.
    rewrite (create_fact_table_returns df _ _ _ _ _ Hu o6). cbn [fst].
    split_and!; [done|apply length_fact_rows|].
    intros i r f Hi Hf. rewrite lookup_fact_rows, Hi in Hf. simplify_eq/=.
    destruct Hu as (Hc & Hd & Hco & Hs & Ht).
    destruct (built_covers df i r Hi) as (Ic & Id & Ico & Is & It).
    split_and!.
    + apply (resolve_row _ candidate_key) in Ic as (d & ? & ? & ?); eauto.
    + apply (resolve_row _ date_key) in Id as (d & ? & ? & ?); eauto.
    + apply (resolve_row _ country_key) in Ico as (d & ? & ? & ?); eauto.
    + apply (resolve_row _ seniority_key) in Is as (d & ? & ? & ?); eauto.
    + apply (resolve_row _ technology_key) in It as (d & ? & ? & ?); eauto.
  - assert (¬ unique_natural_keys (built_candidate df) (built_date df)
              (built_country df) (built_seniority df) (built_technology df))
      as Hu by (by rewrite built_unique).
    by rewrite (create_fact_table_raises df _ _ _ _ _ o6 Hu).
Qed.

(** C5. The claim fails on the code for two applications filed on one
    calendar date at different times of day: the five builders return their
    tables, the date dimension among them with the same [full_date] in two
    rows, and the fact build on the frame and these tables raises
    [InvalidIndexError]: it returns no fact row where the claim has two, and
    so does the whole transform. *)
Theorem fact_build_raises_on_same_day_applications :
  ∃ dc dd dco ds dt,
    (create_dim_candidate same_day_frame []).1 = Ok dc ∧
    (create_dim_date same_day_frame []).1 = Ok dd ∧
    (create_dim_country same_day_frame []).1 = Ok dco ∧
    (create_dim_seniority same_day_frame []).1 = Ok ds ∧
    (create_dim_technology same_day_frame []).1 = Ok dt ∧
    full_date <$> dd = ["2021-02-26"; "2021-02-26"] ∧
    create_fact_table same_day_frame dc dd dco ds dt []
    = (Raise InvalidIndexError, []) ∧
    null_count same_day_raw = 0 ∧
    (transform_data same_day_raw []).1 = Raise InvalidIndexError.
Proof.
  eexists _, _, _, _, _.
  split_and!; [reflexivity..| | | |]; vm_compute; reflexivity.
Qed.

(** C8, as stated, fails: with a country dimension that lists "Norway" twice,
    the lookup of "France" does not leave a null key behind; the fact build
    raises [InvalidIndexError] and returns no table. *)
Lemma fact_build_raises_on_repeated_natural_key :
  (Country stray_row ∉ country_name <$> norway_twice) ∧
  create_fact_table [stray_row] one_candidate one_date norway_twice
    one_seniority one_technology []
  = (Raise InvalidIndexError, []).
Proof.
  split.
  - apply (bool_decide_unpack _). vm_compute. exact I.
  - vm_compute. reflexivity.
Qed.

(** With "Norway" listed once, the same lookup of "France" leaves a null
    country key in the one fact row and the check reports one null for
    ["country_key"]. *)
Example fact_build_reports_unresolved_country :
  create_fact_table [stray_row] one_candidate one_date norway_once
    one_seniority one_technology []
  = (Ok [Fact.mkRow 1 (Some 1) (Some 1) None (Some 1) (Some 1) 8 8 1],
     [NullForeignKeys [("country_key", 1)];
      Records "FACT_APPLICATIONS" 1]).
Proof. vm_compute. reflexivity. Qed.

Lemma expected_null_keys_nonneg df dc dd dco ds dt :
  Forall (λ c, 0 ≤ c.2) (expected_null_keys df dc dd dco ds dt).
Proof. repeat constructor; simpl; unfold unresolved; lia. Qed.

(** A sum of counts is positive exactly when one of the counts is not 0. *)
Lemma sum_pos_iff (counts : list (string * Z)) :
  Forall (λ c, 0 ≤ c.2) counts →
  0 < foldr (λ c acc, c.2 + acc) 0 counts ↔ ¬ Forall (λ c, c.2 = 0) counts.
Proof.
  induction 1 as [|c counts Hc Hcounts IH]; simpl.
  - split; [lia|]. intros []. constructor.
  - rewrite Forall_cons.
    assert (0 ≤ foldr (λ c acc, c.2 + acc) 0 counts) as Hsum.
    { clear IH. induction Hcounts; simpl; lia. }
    destruct (decide (c.2 = 0)) as [H0|H0].
    + rewrite H0, Z.add_0_l, IH. tauto.
    + split; [tauto|]. intros _. lia.
Qed.

Lemma null_keys_fact_rows df dc dd dco ds dt :
  null_keys (fact_rows df dc dd dco ds dt)
  = expected_null_keys df dc dd dco ds dt.
Proof.
  unfold null_keys, expected_null_keys.
  rewrite (fact_rows_column df dc dd dco ds dt Fact.candidate_key
             (λ r, resolve (candidate_map dc) (candidate_of r))) by done.
  rewrite (fact_rows_column df dc dd dco ds dt Fact.date_key
             (λ r, resolve (date_map dd) (strftime (Application_Date r))))
    by done.
  rewrite (fact_rows_column df dc dd dco ds dt Fact.country_key
             (λ r, resolve (country_map dco) (Country r))) by done.
  rewrite (fact_rows_column df dc dd dco ds dt Fact.seniority_key
             (λ r, resolve (seniority_map ds) (Seniority r))) by done.
  rewrite (fact_rows_column df dc dd dco ds dt Fact.technology_key
             (λ r, resolve (tech_map dt) (Technology r))) by done.
  rewrite <-candidate_map_index, <-date_map_index, <-country_map_index,
    <-seniority_map_index, <-tech_map_index.
  rewrite <-!isnull_sum_resolve, <-!list_fmap_compose. done.
Qed.

(** C8, amended. With dimensions that list no natural key twice, the fact
    build does not raise and keeps one fact row per row of the frame; a
    foreign key of a fact row is null exactly when the natural key of the
    source row is absent from the dimension; and the check prints, for every
    foreign-key column with at least one null, the column with its number of
    nulls (or that the check passed when there is none). *)
Theorem unresolved_keys_kept_and_reported (df : list HiredRow)
    (dc : list DimCandidate) (dd : list DimDate) (dco : list DimCountry)
    (ds : list DimSeniority) (dt : list DimTechnology) (out : Stdout) :
  unique_natural_keys dc dd dco ds dt →
  ∃ fact report,
    create_fact_table df dc dd dco ds dt out
    = (Ok fact,
       out ++ [report; Records "FACT_APPLICATIONS" (Z.of_nat (length df))]) ∧
    length fact = length df ∧
    (∀ i (r : HiredRow), df !! i = Some r →
       ∃ f, fact !! i = Some f ∧
         (Fact.candidate_key f = None ↔
          candidate_of r ∉ (λ d, (first_name d, last_name d, email d)) <$> dc) ∧
         (Fact.date_key f = None ↔
          strftime (Application_Date r) ∉ full_date <$> dd) ∧
         (Fact.country_key f = None ↔ Country r ∉ country_name <$> dco) ∧
         (Fact.seniority_key f = None ↔
          Seniority r ∉ seniority_level <$> ds) ∧
         (Fact.technology_key f = None ↔
          Technology r ∉ technology_name <$> dt)) ∧
    report =
      (if decide (Forall (λ c, c.2 = 0) (expected_null_keys df dc dd dco ds dt))
       then Text "Referential integrity check: PASSED"
       else NullForeignKeys
              (filter (λ c, 0 < c.2) (expected_null_keys df dc dd dco ds dt))).
Proof.
  intros Hu. eexists _, _.
  rewrite (create_fact_table_returns df dc dd dco ds dt Hu out).
  split_and!; [done|apply length_fact_rows|..].
  - intros i r Hi. eexists. rewrite lookup_fact_rows, Hi.
    split_and!; [done|apply resolve_absent..].
  - unfold integrity_report. rewrite null_keys_fact_rows.
    pose proof (sum_pos_iff _ (expected_null_keys_nonneg df dc dd dco ds dt)).
    repeat case_decide; naive_solver.
Qed.

Lemma unresolved_keys_kept_and_reported_witness :
  unique_natural_keys one_candidate one_date norway_once one_seniority
    one_technology ∧
  ∃ fact report,
    create_fact_table [stray_row] one_candidate one_date norway_once
      one_seniority one_technology []
    = (Ok fact,
       [] ++ [report;
              Records "FACT_APPLICATIONS" (Z.of_nat (length [stray_row]))]) ∧
    length fact = length [stray_row] ∧
    (∀ i (r : HiredRow), [stray_row] !! i = Some r →
       ∃ f, fact !! i = Some f ∧
         (Fact.candidate_key f = None ↔
          candidate_of r
            ∉ (λ d, (first_name d, last_name d, email d)) <$> one_candidate) ∧
         (Fact.date_key f = None ↔
          strftime (Application_Date r) ∉ full_date <$> one_date) ∧
         (Fact.country_key f = None ↔
          Country r ∉ country_name <$> norway_once) ∧
         (Fact.seniority_key f = None ↔
          Seniority r ∉ seniority_level <$> one_seniority) ∧
         (Fact.technology_key f = None ↔
          Technology r ∉ technology_name <$> one_technology)) ∧
    report =
      (if decide (Forall (λ c, c.2 = 0)
                    (expected_null_keys [stray_row] one_candidate one_date
                       norway_once one_seniority one_technology))
       then Text "Referential integrity check: PASSED"
       else NullForeignKeys
              (filter (λ c, 0 < c.2)
                 (expected_null_keys [stray_row] one_candidate one_date
                    norway_once one_seniority one_technology))).
Proof.
  assert (unique_natural_keys one_candidate one_date norway_once one_seniority
            one_technology) as Hu.
  { unfold unique_natural_keys.
    split_and!; apply (bool_decide_unpack _); vm_compute; exact I. }
  split; [exact Hu|].
  exact (unresolved_keys_kept_and_reported [stray_row] one_candidate one_date
           norway_once one_seniority one_technology [] Hu).
Defined.

(** ** TransformOrchestrator *)

(** The worked example: two applications of the same day, country and
    technology, the first hired, the second not. *)
Example two_applications_star :
  (transform_data two_applications []).1 =
  Ok {| dim_candidate := [ mkDimCandidate 1 "A" "B" "eA";
                           mkDimCandidate 2 "C" "D" "eC" ];
        dim_date := [ mkDimDate 1 "2024-01-10" 2024 1 1 ];
        dim_country := [ mkDimCountry 1 "US" ];
        dim_seniority := [ mkDimSeniority 1 "Junior";
                           mkDimSeniority 2 "Senior" ];
        dim_technology := [ mkDimTechnology 1 "Go" ];
        fact_applications :=
          [ Fact.mkRow 1 (Some 1) (Some 1) (Some 1) (Some 1) (Some 1) 8 8 1;
            Fact.mkRow 2 (Some 2) (Some 1) (Some 1) (Some 2) (Some 1) 5 9 0 ]
     |}.
Proof. vm_compute. reflexivity. Qed.

Lemma apply_hiring_rule_returns (df : list Row) :
  ∃ log,
    returns (apply_hiring_rule df)
      ((λ r, mkHiredRow r (hiring_rule r)) <$> df) log.
Proof. eexists. unfold apply_hiring_rule. cbv zeta. returns_steps. Qed.

(** *** Sorting algorithms *)

(** Under a total order, the entries of a list have one ascending
    arrangement: every implementation of [sort_values] returns what merge
    sort returns. *)
Lemma sorts_merge_sort {A} (R : relation A)
    `{!RelDecision R, !PartialOrder R, !Total R} sort l :
  sorts R sort → sort l = merge_sort R l.
Proof.
  intros Hsort. destruct (Hsort l) as [Hsorted Hperm].
  apply (Sorted_unique R); [done|apply Sorted_merge_sort; apply _|].
  by rewrite Hperm, merge_sort_Permutation.
Qed.

Lemma merge_sort_sorts {A} (R : relation A) `{!RelDecision R, !Total R} :
  sorts R (merge_sort R).
Proof.
  intros l. split; [apply Sorted_merge_sort; apply _|].
  apply merge_sort_Permutation.
Qed.

Section insertion_sort.
Context {A : Type} (R : relation A) `{!RelDecision R, !Total R}.

Lemma insert_sorted_Permutation x l : insert_sorted R x l ≡ₚ x :: l.
Proof.
  induction l as [|y l IH]; simpl; [done|].
  case_decide; [done|]. by rewrite IH, Permutation_swap.
Qed.

Lemma HdRel_insert_sorted x y l :
  R y x → HdRel R y l → HdRel R y (insert_sorted R x l).
Proof.
  intros Hyx Hl. destruct l as [|z l]; simpl; [by constructor|].
  case_decide; constructor; [done|]. by inversion Hl.
Qed.

Lemma Sorted_insert_sorted x l : Sorted R l → Sorted R (insert_sorted R x l).
Proof.
  induction 1 as [|y l Hl IH Hy]; simpl; [by repeat constructor|].
  case_decide as Hxy.
  - constructor; [by constructor|by constructor].
  - constructor; [done|]. apply HdRel_insert_sorted; [|done].
    by destruct (total R x y).
Qed.

Lemma insertion_sort_sorts : sorts R (insertion_sort R).
Proof.
  intros l. unfold insertion_sort.
  induction l as [|x l [IH1 IH2]]; simpl; [split; [constructor|done]|].
  split; [by apply Sorted_insert_sorted|].
  by rewrite insert_sorted_Permutation, IH2.
Qed.
End insertion_sort.

(** Two runs agree when their continuations do. *)
Lemma bind_ext {A B} (m : Py A) (f g : A → Py B) out :
  (∀ a out', f a out' = g a out') → (m ≫= f) out = (m ≫= g) out.
Proof.
  intros H. unfold mbind, Py_bind, py_bind.
  destruct (m out) as [[a|e] out']; [apply H|done].
Qed.

(** Whatever the sorting algorithm, the builders and the orchestrator do what
    they do with merge sort. *)
Section any_sort_eq.
Context (sort_date : list Timestamp → list Timestamp).
Context (sort_str : list string → list string).
Context (Hdate : sorts timestamp_le sort_date).
Context (Hstr : sorts String.le sort_str).

Lemma create_dim_date_by_eq df :
  create_dim_date_by sort_date df = create_dim_date df.
Proof.
  unfold create_dim_date_by, create_dim_date, sort_values_date.
  by rewrite (sorts_merge_sort timestamp_le sort_date _ Hdate).
Qed.

Lemma create_dim_country_by_eq df :
  create_dim_country_by sort_str df = create_dim_country df.
Proof.
  unfold create_dim_country_by, create_dim_country, sort_values_str.
  by rewrite (sorts_merge_sort String.le sort_str _ Hstr).
Qed.

Lemma create_dim_seniority_by_eq df :
  create_dim_seniority_by sort_str df = create_dim_seniority df.
Proof.
  unfold create_dim_seniority_by, create_dim_seniority, sort_values_str.
  by rewrite (sorts_merge_sort String.le sort_str _ Hstr).
Qed.

Lemma create_dim_technology_by_eq df :
  create_dim_technology_by sort_str df = create_dim_technology df.
Proof.
  unfold create_dim_technology_by, create_dim_technology, sort_values_str.
  by rewrite (sorts_merge_sort String.le sort_str _ Hstr).
Qed.

Lemma transform_data_by_eq df out :
  transform_data_by sort_date sort_str df out = transform_data df out.
Proof.
  unfold transform_data_by, transform_data.
  do 7 (apply bind_ext; intros ? ?).
  by rewrite create_dim_date_by_eq, create_dim_country_by_eq,
    create_dim_seniority_by_eq, create_dim_technology_by_eq.
Qed.
End any_sort_eq.

(** *** Runs of the transform *)

Ltac returns_chain :=
  repeat (eapply returns_bind_eq;
          [first [apply returns_print | eassumption]| |reflexivity];
          cbv beta).

Ltac raises_chain :=
  repeat (eapply returns_raises_bind_eq;
          [first [apply returns_print | eassumption]| |reflexivity];
          cbv beta).

Lemma create_fact_table_raises_log df dc dd dco ds dt :
  ¬ unique_natural_keys dc dd dco ds dt →
  raises (create_fact_table df dc dd dco ds dt) InvalidIndexError [].
Proof.
  intros Hu out. rewrite app_nil_r. by apply create_fact_table_raises.
Qed.

(** What [transform_data] returns or raises, and what it prints, is the same
    from every state of standard output. *)
Lemma transform_data_runs (df : list Raw.Row) :
  ∃ res log, ∀ out, transform_data df out = (res, out ++ log).
Proof.
  destruct (decide (text_typed df)) as [Htyped|Htyped].
  - destruct (handle_data_quality_returns df Htyped) as [log1 Hclean].
    set (clean := typed (strip_text_cols <$> dropna df)).
    destruct (apply_hiring_rule_returns clean) as [log2 Hrule].
    set (hired := (λ r, mkHiredRow r (hiring_rule r)) <$> clean) in Hrule.
    pose proof (create_dim_candidate_returns hired) as Hc.
    pose proof (create_dim_date_returns hired) as Hd.
    pose proof (create_dim_country_returns hired) as Hco.
    pose proof (create_dim_seniority_returns hired) as Hs.
    pose proof (create_dim_technology_returns hired) as Ht.
    destruct (decide (unique_natural_keys (built_candidate hired)
                        (built_date hired) (built_country hired)
                        (built_seniority hired) (built_technology hired)))
      as [Hu|Hu].
    + pose proof (create_fact_table_returns hired _ _ _ _ _ Hu) as Hf.
      assert (∃ t log, returns (transform_data df) t log) as (t & log & Hrun).
      { eexists _, _. unfold transform_data. returns_chain.
        apply returns_ret. }
      by exists (Ok t), log.
    + pose proof (create_fact_table_raises_log hired _ _ _ _ _ Hu) as Hf.
      assert (∃ log, raises (transform_data df) InvalidIndexError log)
        as (log & Hrun).
      { eexists. unfold transform_data. raises_chain.
        apply raises_bind. exact Hf. }
      by exists (Raise InvalidIndexError), log.
  - pose proof (handle_data_quality_raises df Htyped) as Hclean.
    assert (∃ log, raises (transform_data df) AttributeError log)
      as (log & Hrun).
    { eexists. unfold transform_data. raises_chain.
      apply raises_bind. exact Hclean. }
    by exists (Raise AttributeError), log.
Qed.



(** Sorting by insertion gives the tables merge sort gives, here on a frame
    whose dates and labels are not in ascending order. *)
Example transform_with_insertion_sort :
  (transform_data_by (insertion_sort timestamp_le) (insertion_sort String.le)
     ragged_frame []).1
  = Ok {| dim_candidate := [ mkDimCandidate 1 "Ana" "Diaz" "ana@example.com";
                             mkDimCandidate 2 "Cy" "Eng" "cy@example.com" ];
          dim_date := [ mkDimDate 1 "2020-01-05" 2020 1 1;
                        mkDimDate 2 "2021-02-26" 2021 2 1 ];
          dim_country := [ mkDimCountry 1 "Chile"; mkDimCountry 2 "Norway" ];
          dim_seniority := [ mkDimSeniority 1 "Intern";
                             mkDimSeniority 2 "Senior" ];
          dim_technology := [ mkDimTechnology 1 "Go";
                              mkDimTechnology 2 "Rust" ];
          fact_applications :=
            [ Fact.mkRow 1 (Some 1) (Some 2) (Some 2) (Some 1) (Some 1) 7 9 1;
              Fact.mkRow 2 (Some 2) (Some 1) (Some 1) (Some 2) (Some 2) 9 6 0 ]
       |}.
Proof. vm_compute. reflexivity. Qed.

(** * Further properties of the transform stage *)

(** ** What [strip] removes *)

Lemma lstrip_split s : ∃ a, s = a +:+ lstrip s ∧ all_space a.
Proof.
  induction s as [|c s (a & Ha & Hsp)]; [by exists EmptyString|].
  simpl. destruct (isspace c) eqn:Hc.
  - exists (String c a). split; [|done].
    change (String c s = String c (a +:+ lstrip s)). by rewrite <-Ha.
  - by exists EmptyString.
Qed.

Lemma rstrip_split s : ∃ b, s = rstrip s +:+ b ∧ all_space b.
Proof.
  induction s as [|c s (b & Hb & Hsp)]; [by exists EmptyString|].
  revert Hb. rewrite rstrip_cons. destruct (rstrip s) as [|c' t]; intros Hb.
  - change (s = b) in Hb. subst b. destruct (isspace c) eqn:Hc.
    + by exists (String c s).
    + by exists s.
  - exists b. split; [|done].
    change (String c s = String c (String c' t +:+ b)). by rewrite <-Hb.
Qed.

Lemma lstrip_first s c : first_char (lstrip s) = Some c → isspace c = false.
Proof.
  induction s as [|c' s IH]; simpl; [done|].
  destruct (isspace c') eqn:Hc; [done|]. by intros [= <-].
Qed.

Lemma rstrip_first s c : first_char (rstrip s) = Some c → first_char s = Some c.
Proof.
  destruct s as [|c' s]; [done|]. rewrite rstrip_cons.
  destruct (rstrip s); [|done]. by destruct (isspace c').
Qed.

Lemma rstrip_last s c : last_char (rstrip s) = Some c → isspace c = false.
Proof.
  induction s as [|c' s IH]; [done|]. rewrite rstrip_cons.
  destruct (rstrip s) as [|c'' t] eqn:Hr.
  - destruct (isspace c') eqn:Hc; [done|]. by intros [= <-].
  - done.
Qed.

Lemma trimmed_strip s : trimmed (strip s).
Proof.
  split; intros c Hc.
  - by apply (lstrip_first s), rstrip_first.
  - by apply (rstrip_last (lstrip s)).
Qed.

Lemma strip_idemp s : strip (strip s) = strip s.
Proof. apply strip_trimmed, trimmed_strip. Qed.

Lemma strip_split s :
  ∃ a b, s = a +:+ strip s +:+ b ∧ all_space a ∧ all_space b.
Proof.
  destruct (lstrip_split s) as (a & Ha & Hsa).
  destruct (rstrip_split (lstrip s)) as (b & Hb & Hsb).
  exists a, b. split_and!; [|done..]. unfold strip. by rewrite <-Hb.
Qed.

Lemma strip_text_cols_idemp r :
  strip_text_cols (strip_text_cols r) = strip_text_cols r.
Proof.
  destruct r as [[?|] [?|] [?|] ? [?|] ? [?|] [?|] ? ?];
    unfold strip_text_cols; cbn; by rewrite ?strip_idemp.
Qed.

(** ** Cleanser, on any frame *)

Lemma null_count_cleaned df : null_count (cleaned df) = 0.
Proof. apply null_count_0, handle_data_quality_no_nulls. Qed.

Lemma cleaned_idemp df : cleaned (cleaned df) = cleaned df.
Proof.
  unfold cleaned at 1. rewrite (dropna_id _ (null_count_cleaned df)).
  unfold cleaned. rewrite <-list_fmap_compose. apply list_fmap_ext.
  intros i r _. apply strip_text_cols_idemp.
Qed.

Lemma length_dropna df :
  Z.of_nat (length (dropna df)) = Z.of_nat (length df) - rows_with_null df.
Proof.
  unfold dropna, rows_with_null. induction df as [|r df IH]; [done|].
  destruct (decide (row_nulls r = 0)) as [H0|H0].
  - rewrite filter_cons_True, filter_cons_False by auto. simpl length. lia.
  - rewrite filter_cons_False, filter_cons_True by auto. simpl length. lia.
Qed.

Lemma rows_with_null_0 df : rows_with_null df = 0 ↔ null_count df = 0.
Proof.
  rewrite null_count_0. unfold rows_with_null.
  induction df as [|r df IH]; [by split; [constructor|]|].
  rewrite Forall_cons. destruct (decide (row_nulls r = 0)) as [H0|H0].
  - rewrite filter_cons_False by auto. naive_solver.
  - rewrite filter_cons_True by auto. simpl length. split; [lia|tauto].
Qed.

(** The two lines [handle_data_quality] prints on a text-typed frame. *)
Lemma handle_data_quality_log df :
  text_typed df →
  returns (handle_data_quality df) (cleaned df)
    [ if decide (null_count df = 0)
      then Text "No null values found. Dataset is clean."
      else DroppedNulls (rows_with_null df);
      Text "Text columns stripped of whitespace." ].
Proof.
  intros Ht%text_typed_dtype. unfold handle_data_quality, cleaned. cbv zeta.
  pose proof (null_count_nonneg df) as Hge.
  pose proof (length_dropna df) as Hlen.
  destruct (decide (0 < null_count df)) as [Hn|Hn];
    destruct (decide (null_count df = 0)) as [H0|H0]; try lia.
  - replace (rows_with_null df)
      with (Z.of_nat (length df) - Z.of_nat (length (dropna df))) by lia.
    eapply returns_bind_eq; [returns_steps|cbv beta|reflexivity].
    rewrite strip_columns_object by done. returns_steps.
  - rewrite (dropna_id df H0).
    eapply returns_bind_eq; [returns_steps|cbv beta|reflexivity].
    rewrite strip_columns_object by done. returns_steps.
Qed.

(** A cleaned frame is text-typed. *)
Lemma text_typed_cleaned df : text_typed (cleaned df).
Proof. apply null_free_text_typed, null_count_cleaned. Qed.

Lemma rows_with_null_all df :
  Forall (λ r, row_nulls r ≠ 0) df → rows_with_null df = Z.of_nat (length df).
Proof.
  unfold rows_with_null. induction 1 as [|r df Hr _ IH]; [done|].
  rewrite filter_cons_True by done. simpl length. lia.
Qed.

Lemma elem_of_cleaned df r' :
  r' ∈ cleaned df ↔ ∃ r, r ∈ df ∧ row_nulls r = 0 ∧ r' = strip_text_cols r.
Proof.
  unfold cleaned, dropna. rewrite list_elem_of_fmap.
  setoid_rewrite list_elem_of_filter. naive_solver.
Qed.

(** The second row holds two nulls and is dropped as one row; the first
    name of the first row loses its blanks. *)
Example cleaning_ragged_frame :
  handle_data_quality ragged_frame []
  = (Ok [ Raw.mkRow (Some "Ana") (Some "Diaz") (Some "ana@example.com")
            (Some (mkTimestamp 2021 2 26 0)) (Some "Norway") (Some 2)
            (Some "Intern") (Some "Go") (Some 7) (Some 9);
          Raw.mkRow (Some "Cy") (Some "Eng") (Some "cy@example.com")
            (Some (mkTimestamp 2020 1 5 0)) (Some "Chile") (Some 4)
            (Some "Senior") (Some "Rust") (Some 9) (Some 6) ],
     [ DroppedNulls 1; Text "Text columns stripped of whitespace." ]).
Proof. vm_compute. reflexivity. Qed.

(** X1. On a text-typed frame [handle_data_quality] returns the rows that
    have no null cell, stripped, and nothing else: the result holds no null,
    its length is the input length minus the number of rows with a null, and
    the first line printed either says that there is no null or gives that
    number of rows (a count of rows, not of null cells). On a frame with a
    text column that holds no text in any row, every row is dropped and
    reported, and then [AttributeError] is raised: the function returns
    nothing. *)
Theorem cleaning_drops_rows_with_a_null (df : list Raw.Row) (out : Stdout) :
  (text_typed df →
   ∃ df' line,
     handle_data_quality df out
     = (Ok df', out ++ [line; Text "Text columns stripped of whitespace."]) ∧
     null_count df' = 0 ∧
     Z.of_nat (length df') = Z.of_nat (length df) - rows_with_null df ∧
     (∀ r', r' ∈ df' ↔
            ∃ r, r ∈ df ∧ row_nulls r = 0 ∧ r' = strip_text_cols r) ∧
     line = (if decide (rows_with_null df = 0)
             then Text "No null values found. Dataset is clean."
             else DroppedNulls (rows_with_null df))) ∧
  (¬ text_typed df →
   handle_data_quality df out
   = (Raise AttributeError, out ++ [DroppedNulls (Z.of_nat (length df))]) ∧
   rows_with_null df = Z.of_nat (length df) ∧ df ≠ []).
Proof.
  split.
  - intros Ht. eexists _, _. rewrite (handle_data_quality_log df Ht out).
    split_and!.
    + reflexivity.
    + apply null_count_cleaned.
    + unfold cleaned. rewrite length_fmap. apply length_dropna.
    + apply elem_of_cleaned.
    + pose proof (rows_with_null_0 df). repeat case_decide; naive_solver.
  - intros Ht. destruct (not_text_typed df Ht) as [Hne Hall].
    split_and!; [|by apply rows_with_null_all|done].
    apply (handle_data_quality_raises df Ht out).
Qed.

(** X2. Cleaning is idempotent: whenever [handle_data_quality] returns a
    frame, which it does exactly on a text-typed frame, applying it to that
    frame returns the frame unchanged and reports that no null was found;
    otherwise it raises [AttributeError]. *)
Theorem cleaning_idempotent (df : list Raw.Row) (out out' : Stdout) :
  match (handle_data_quality df out).1 with
  | Ok df' =>
      text_typed df ∧
      handle_data_quality df' out'
      = (Ok df', out' ++ [Text "No null values found. Dataset is clean.";
                          Text "Text columns stripped of whitespace."])
  | Raise e => e = AttributeError ∧ ¬ text_typed df
  end.
Proof.
  destruct (decide (text_typed df)) as [Ht|Ht].
  - rewrite (handle_data_quality_log df Ht out). cbn [fst]. split; [done|].
    rewrite (handle_data_quality_log (cleaned df) (text_typed_cleaned df) out').
    rewrite cleaned_idemp. by rewrite decide_True by apply null_count_cleaned.
  - by rewrite (handle_data_quality_raises df Ht out).
Qed.

Lemma strip_cell_split col r :
  col ∈ text_cols → row_nulls r = 0 →
  ∃ s s' a b,
    getitem col r = Some s ∧ getitem col (strip_text_cols r) = Some s' ∧
    s = a +:+ s' +:+ b ∧ all_space a ∧ all_space b ∧ trimmed s'.
Proof.
  intros Hcol Hr.
  destruct r as [[fn|] [ln|] [em|] [ad|] [co|] [yo|] [se|] [te|] [cc|] [ti|]];
    try done.
  unfold text_cols in Hcol.
  repeat (apply elem_of_cons in Hcol as [->|Hcol]);
    [..|by apply elem_of_nil in Hcol];
    match goal with
    | |- ∃ _ _ _ _, ?c = Some _ ∧ _ =>
        let s := eval cbn in c in
        match s with
        | Some ?s =>
            destruct (strip_split s) as (a & b & Hs & Ha & Hb);
            exists s, (strip s), a, b;
            split_and!; [done|done|done|done|done|apply trimmed_strip]
        end
    end.
Qed.

(** X3. Cleaning changes text only at its ends: in a frame that
    [handle_data_quality] returns, every text cell of a row is the cell of an
    input row without its leading and trailing whitespace, it neither starts
    nor ends with whitespace, and what lies between is kept character for
    character. The function returns a frame exactly when the input is
    text-typed, and raises [AttributeError] otherwise. *)
Theorem cleaned_text_loses_only_outer_whitespace (df : list Raw.Row)
    (out : Stdout) :
  match (handle_data_quality df out).1 with
  | Ok df' =>
      text_typed df ∧
      ∀ r', r' ∈ df' →
        ∃ r, r ∈ df ∧
          ∀ col, col ∈ text_cols →
            ∃ s s' a b,
              getitem col r = Some s ∧ getitem col r' = Some s' ∧
              s = a +:+ s' +:+ b ∧ all_space a ∧ all_space b ∧ trimmed s'
  | Raise e => e = AttributeError ∧ ¬ text_typed df
  end.
Proof.
  destruct (decide (text_typed df)) as [Ht|Ht].
  - rewrite (handle_data_quality_log df Ht out). cbn [fst]. split; [done|].
    intros r' (r & Hr & H0 & ->)%elem_of_cleaned.
    exists r. split; [done|]. intros col Hcol. by apply strip_cell_split.
  - by rewrite (handle_data_quality_raises df Ht out).
Qed.

(** ** RuleEngine: the report *)

Lemma hiring_rule_1 r : hiring_rule r = 1 ↔ meets_rule r.
Proof.
  unfold hiring_rule, meets_rule.
  destruct (bool_decide (7 ≤ Code_Challenge_Score r)) eqn:H1;
    destruct (bool_decide (7 ≤ Technical_Interview_Score r)) eqn:H2;
    simpl;
    try apply bool_decide_eq_true in H1; try apply bool_decide_eq_true in H2;
    try apply bool_decide_eq_false in H1;
    try apply bool_decide_eq_false in H2; split; try done; try tauto.
Qed.

Lemma hiring_rule_0 r : hiring_rule r = 0 ↔ ¬ meets_rule r.
Proof.
  rewrite <-hiring_rule_1. unfold hiring_rule.
  by destruct (_ && _).
Qed.

Lemma sum_is_hired_flagged df :
  sum_is_hired (flagged df) = Z.of_nat (length (filter meets_rule df)).
Proof.
  induction df as [|r df IH]; [done|].
  cbn [flagged fmap list_fmap sum_is_hired foldr is_hired].
  fold (flagged df). fold (sum_is_hired (flagged df)). rewrite IH.
  destruct (decide (meets_rule r)) as [Hr|Hr].
  - rewrite filter_cons_True by done.
    apply hiring_rule_1 in Hr as ->. simpl length. lia.
  - rewrite filter_cons_False by done. by apply hiring_rule_0 in Hr as ->.
Qed.

Lemma apply_hiring_rule_log df :
  returns (apply_hiring_rule df) (flagged df)
    [ Text "Hiring rule applied:";
      Hired (Z.of_nat (length (filter meets_rule df)));
      Rejected (Z.of_nat (length df)
                - Z.of_nat (length (filter meets_rule df))) ].
Proof.
  unfold apply_hiring_rule. cbv zeta. fold (flagged df).
  rewrite sum_is_hired_flagged.
  assert (length (flagged df) = length df) as -> by apply length_fmap.
  returns_steps.
Qed.

(** X4. The hiring report is consistent with the flags: the count printed as
    hired is the number of rows whose two scores are both at least 7, the
    count printed as rejected is the number of the other rows, the two add up
    to the number of rows, and the hire flags of the returned frame sum to
    the hired count. *)
Theorem hiring_report_counts (df : list Row) (out : Stdout) :
  ∃ df' hired rejected,
    apply_hiring_rule df out
    = (Ok df', out ++ [Text "Hiring rule applied:"; Hired hired;
                       Rejected rejected]) ∧
    hired = Z.of_nat (length (filter meets_rule df)) ∧
    rejected = Z.of_nat (length (filter (λ r, ¬ meets_rule r) df)) ∧
    hired + rejected = Z.of_nat (length df) ∧
    foldr (λ r acc, is_hired r + acc) 0 df' = hired.
Proof.
  eexists _, _, _. rewrite (apply_hiring_rule_log df out).
  assert (length (filter meets_rule df)
          + length (filter (λ r, ¬ meets_rule r) df) = length df)%nat as Hlen.
  { induction df as [|r df IH]; [done|].
    destruct (decide (meets_rule r)).
    - rewrite filter_cons_True, filter_cons_False by auto. simpl. lia.
    - rewrite filter_cons_False, filter_cons_True by auto. simpl. lia. }
  split_and!; [reflexivity|done|lia|lia|apply sum_is_hired_flagged].
Qed.

(** ** DimensionBuilder: sizes and dependence on the frame *)

Lemma length_drop_duplicates_from `{EqDecision A} (seen l : list A) :
  (length (drop_duplicates_from seen l) ≤ length l)%nat.
Proof.
  revert seen. induction l as [|x l IH]; intros seen; simpl; [done|].
  case_decide; simpl; [etrans; [apply IH|lia]|].
  specialize (IH (x :: seen)). lia.
Qed.

Lemma drop_duplicates_nil `{EqDecision A} (l : list A) :
  drop_duplicates l = [] ↔ l = [].
Proof.
  split; [|by intros ->]. destruct l as [|x l]; [done|].
  unfold drop_duplicates. cbn [drop_duplicates_from].
  by destruct (decide (x ∈ [])) as [?%elem_of_nil|].
Qed.

Section sorted_distinct.
Context {A : Type} `{EqDecision A} (R : relation A) `{!RelDecision R}.
Context `{!PartialOrder R, !Total R}.

(** Deduplicating and sorting gives the same list for two columns exactly
    when they hold the same values. *)
Lemma sorted_distinct_ext (l1 l2 : list A) :
  merge_sort R (drop_duplicates l1) = merge_sort R (drop_duplicates l2)
  ↔ ∀ x, x ∈ l1 ↔ x ∈ l2.
Proof.
  split.
  - intros Heq x.
    rewrite <-(elem_of_drop_duplicates x l1), <-(elem_of_drop_duplicates x l2).
    rewrite <-(elem_of_merge_sort R x (drop_duplicates l1)),
      <-(elem_of_merge_sort R x (drop_duplicates l2)). by rewrite Heq.
  - intros Hel. apply (StronglySorted_unique R).
    + apply StronglySorted_merge_sort; apply _.
    + apply StronglySorted_merge_sort; apply _.
    + rewrite !merge_sort_Permutation.
      apply NoDup_Permutation; [apply NoDup_drop_duplicates..|].
      intros x. by rewrite !elem_of_drop_duplicates.
Qed.
End sorted_distinct.

Lemma with_keys_inj {A B C} (mk : Z → A → B) (val : B → C) (f : A → C)
    `{!Inj (=) (=) f} (l1 l2 : list A) :
  (∀ k x, val (mk k x) = f x) →
  with_keys mk l1 = with_keys mk l2 → l1 = l2.
Proof.
  intros Hval Heq. apply (f_equal (fmap val)) in Heq.
  rewrite !(fmap_with_keys_value mk val f) in Heq by done.
  by apply (inj (fmap f)).
Qed.

Lemma labels_ext col df1 df2 :
  labels col df1 = labels col df2 ↔
  ∀ x, x ∈ (λ r : HiredRow, col r) <$> df1 ↔ x ∈ (λ r : HiredRow, col r) <$> df2.
Proof. apply (sorted_distinct_ext String.le). Qed.

Lemma dates_ext df1 df2 :
  dates df1 = dates df2 ↔
  ∀ d, d ∈ (λ r : HiredRow, Application_Date r) <$> df1
       ↔ d ∈ (λ r : HiredRow, Application_Date r) <$> df2.
Proof. apply (sorted_distinct_ext timestamp_le). Qed.

Lemma with_keys_fmap_eq {A B C} (mk : Z → A → B) (val : B → C) (f : A → C)
    (l1 l2 : list A) :
  (∀ k x, val (mk k x) = f x) →
  with_keys mk l1 = with_keys mk l2 → f <$> l1 = f <$> l2.
Proof.
  intros Hval Heq. apply (f_equal (fmap val)) in Heq.
  by rewrite !(fmap_with_keys_value mk val f) in Heq by done.
Qed.

(** X5. The country, seniority and technology dimensions are a function of
    the set of values of their column and of nothing else: two frames get the
    same dimension table, keys included, exactly when their columns hold the
    same values, whatever the order of the rows and however often a value is
    repeated. The date dimension is a function of the set of timestamps, and
    it tells frames apart by their calendar dates only: two frames with the
    same timestamps get the same table, and two frames with the same table
    were filed on the same calendar dates. *)
Theorem sorted_dimensions_depend_on_value_set (df1 df2 : list HiredRow)
    (out1 out2 : Stdout) :
  ((∀ t, t ∈ (λ r : HiredRow, Application_Date r) <$> df1
         ↔ t ∈ (λ r : HiredRow, Application_Date r) <$> df2) →
   (create_dim_date df1 out1).1 = (create_dim_date df2 out2).1) ∧
  ((create_dim_date df1 out1).1 = (create_dim_date df2 out2).1 →
   ∀ d, d ∈ (λ r : HiredRow, dt_date (Application_Date r)) <$> df1
        ↔ d ∈ (λ r : HiredRow, dt_date (Application_Date r)) <$> df2) ∧
  ((create_dim_country df1 out1).1 = (create_dim_country df2 out2).1 ↔
   ∀ x, x ∈ (λ r : HiredRow, Country r) <$> df1
        ↔ x ∈ (λ r : HiredRow, Country r) <$> df2) ∧
  ((create_dim_seniority df1 out1).1 = (create_dim_seniority df2 out2).1 ↔
   ∀ x, x ∈ (λ r : HiredRow, Seniority r) <$> df1
        ↔ x ∈ (λ r : HiredRow, Seniority r) <$> df2) ∧
  ((create_dim_technology df1 out1).1 = (create_dim_technology df2 out2).1 ↔
   ∀ x, x ∈ (λ r : HiredRow, Technology r) <$> df1
        ↔ x ∈ (λ r : HiredRow, Technology r) <$> df2).
Proof.
  rewrite (create_dim_date_returns df1 out1), (create_dim_date_returns df2 out2),
    (create_dim_country_returns df1 out1), (create_dim_country_returns df2 out2),
    (create_dim_seniority_returns df1 out1),
    (create_dim_seniority_returns df2 out2),
    (create_dim_technology_returns df1 out1),
    (create_dim_technology_returns df2 out2).
  cbn [fst]. rewrite <-dates_ext, <-!labels_ext. split_and!.
  - by intros ->.
  - intros [= Heq]. apply (with_keys_fmap_eq date_row full_date strftime) in Heq;
      [|done].
    assert (∀ df d, d ∈ (λ r : HiredRow, dt_date (Application_Date r)) <$> df
                    ↔ ∃ t, t ∈ dates df ∧ strftime t ∈ strftime <$> dates df
                           ∧ dt_date t = d) as Hdays.
    { intros df d. rewrite list_elem_of_fmap. split.
      - intros (r & -> & Hr). exists (Application_Date r).
        assert (Application_Date r ∈ dates df) as Hin.
        { apply elem_of_dates, list_elem_of_fmap. eauto. }
        split_and!; [done| |done]. by apply list_elem_of_fmap_2.
      - intros (t & Ht & _ & <-).
        apply elem_of_dates, list_elem_of_fmap in Ht as (r & -> & Hr). eauto. }
    intros d. rewrite !Hdays. split.
    + intros (t & Ht & Hs & <-). rewrite Heq in Hs.
      apply list_elem_of_fmap in Hs as (t' & Hs & Ht').
      exists t'. split_and!; [done|by apply list_elem_of_fmap_2|].
      symmetry. by apply strftime_date.
    + intros (t & Ht & Hs & <-). rewrite <-Heq in Hs.
      apply list_elem_of_fmap in Hs as (t' & Hs & Ht').
      exists t'. split_and!; [done|by apply list_elem_of_fmap_2|].
      symmetry. by apply strftime_date.
  - split.
    + intros [= Heq].
      by apply (with_keys_inj mkDimCountry country_name id) in Heq.
    + by intros ->.
  - split.
    + intros [= Heq].
      by apply (with_keys_inj mkDimSeniority seniority_level id) in Heq.
    + by intros ->.
  - split.
    + intros [= Heq].
      by apply (with_keys_inj mkDimTechnology technology_name id) in Heq.
    + by intros ->.
Qed.

Lemma fmap_nil_iff {A B} (f : A → B) (l : list A) : f <$> l = [] ↔ l = [].
Proof. split; [apply fmap_nil_inv|by intros ->]. Qed.

Lemma length_candidates_le df : (length (candidates df) ≤ length df)%nat.
Proof.
  unfold candidates, drop_duplicates.
  etrans; [apply length_drop_duplicates_from|]. by rewrite length_fmap.
Qed.

Lemma length_dates_le df : (length (dates df) ≤ length df)%nat.
Proof.
  unfold dates, sort_values_date, drop_duplicates. rewrite length_merge_sort.
  etrans; [apply length_drop_duplicates_from|]. by rewrite length_fmap.
Qed.

Lemma length_labels_le col df : (length (labels col df) ≤ length df)%nat.
Proof.
  unfold labels, sort_values_str, drop_duplicates. rewrite length_merge_sort.
  etrans; [apply length_drop_duplicates_from|]. by rewrite length_fmap.
Qed.

Lemma candidates_nil df : candidates df = [] ↔ df = [].
Proof. unfold candidates. rewrite drop_duplicates_nil. apply fmap_nil_iff. Qed.

Lemma merge_sort_nil {A} (R : relation A) `{!RelDecision R} (l : list A) :
  merge_sort R l = [] ↔ l = [].
Proof.
  split; [|by intros ->]. intros Hnil.
  apply Permutation_nil_r. by rewrite <-(merge_sort_Permutation R l), Hnil.
Qed.

Lemma dates_nil df : dates df = [] ↔ df = [].
Proof.
  unfold dates, sort_values_date.
  rewrite merge_sort_nil, drop_duplicates_nil. apply fmap_nil_iff.
Qed.

Lemma labels_nil col df : labels col df = [] ↔ df = [].
Proof.
  unfold labels, sort_values_str.
  rewrite merge_sort_nil, drop_duplicates_nil. apply fmap_nil_iff.
Qed.

Lemma with_keys_nil {A B} (mk : Z → A → B) (l : list A) :
  with_keys mk l = [] ↔ l = [].
Proof. split; [|by intros ->]. by destruct l. Qed.

(** X6. No dimension has more rows than the frame it is built from, and a
    dimension is empty exactly when the frame is: an empty frame gives five
    empty dimensions without raising, and a frame with at least one row gives
    at least one row in every dimension. *)
Theorem dimension_sizes_bounded (df : list HiredRow) (out : Stdout) :
  (∃ dim, (create_dim_candidate df out).1 = Ok dim ∧
          (length dim ≤ length df)%nat ∧ (dim = [] ↔ df = [])) ∧
  (∃ dim, (create_dim_date df out).1 = Ok dim ∧
          (length dim ≤ length df)%nat ∧ (dim = [] ↔ df = [])) ∧
  (∃ dim, (create_dim_country df out).1 = Ok dim ∧
          (length dim ≤ length df)%nat ∧ (dim = [] ↔ df = [])) ∧
  (∃ dim, (create_dim_seniority df out).1 = Ok dim ∧
          (length dim ≤ length df)%nat ∧ (dim = [] ↔ df = [])) ∧
  (∃ dim, (create_dim_technology df out).1 = Ok dim ∧
          (length dim ≤ length df)%nat ∧ (dim = [] ↔ df = [])).
Proof.
  split_and!; eexists.
  - rewrite (create_dim_candidate_returns df out). split_and!; [done|..].
    + rewrite length_with_keys. apply length_candidates_le.
    + rewrite with_keys_nil. apply candidates_nil.
  - rewrite (create_dim_date_returns df out). split_and!; [done|..].
    + rewrite length_with_keys. apply length_dates_le.
    + rewrite with_keys_nil. apply dates_nil.
  - rewrite (create_dim_country_returns df out). split_and!; [done|..].
    + rewrite length_with_keys. apply length_labels_le.
    + rewrite with_keys_nil. apply labels_nil.
  - rewrite (create_dim_seniority_returns df out). split_and!; [done|..].
    + rewrite length_with_keys. apply length_labels_le.
    + rewrite with_keys_nil. apply labels_nil.
  - rewrite (create_dim_technology_returns df out). split_and!; [done|..].
    + rewrite length_with_keys. apply length_labels_le.
    + rewrite with_keys_nil. apply labels_nil.
Qed.

(** ** FactBuilder: errors and lookups *)

(** X7. The fact build raises [InvalidIndexError] exactly when one of the
    five dimension tables lists a natural key twice, whatever the frame
    (an empty one included) and before printing anything; otherwise it
    returns a table. *)
Theorem fact_build_raises_iff_repeated_natural_key (df : list HiredRow)
    (dc : list DimCandidate) (dd : list DimDate) (dco : list DimCountry)
    (ds : list DimSeniority) (dt : list DimTechnology) (out : Stdout) :
  (¬ unique_natural_keys dc dd dco ds dt ↔
   create_fact_table df dc dd dco ds dt out = (Raise InvalidIndexError, out)) ∧
  (unique_natural_keys dc dd dco ds dt ↔
   ∃ fact, (create_fact_table df dc dd dco ds dt out).1 = Ok fact).
Proof.
  destruct (decide (unique_natural_keys dc dd dco ds dt)) as [Hu|Hu].
  - rewrite (create_fact_table_returns df _ _ _ _ _ Hu out). split; split.
    + done.
    + done.
    + eauto.
    + done.
  - rewrite (create_fact_table_raises df _ _ _ _ _ out Hu). split; split.
    + done.
    + done.
    + done.
    + by intros [fact ?].
Qed.

Lemma resolve_listed {B} `{EqDecision K} (name : B → K) (key : B → Z)
    (dim : list B) (x : K) (k : Z) :
  NoDup (name <$> dim) →
  resolve ((λ d, (name d, key d)) <$> dim) x = Some k ↔
  ∃ d, d ∈ dim ∧ name d = x ∧ key d = k.
Proof.
  intros Hnd. rewrite resolve_Some by (by rewrite <-list_fmap_compose).
  rewrite list_elem_of_fmap. naive_solver.
Qed.

(** X8. The fact build is a join on the natural keys: with dimension tables
    that list no natural key twice, a foreign key of fact row i has the value
    k exactly when the dimension has a row with the natural key of frame
    row i and the surrogate key k. *)
Theorem foreign_key_is_key_of_listing_row (df : list HiredRow)
    (dc : list DimCandidate) (dd : list DimDate) (dco : list DimCountry)
    (ds : list DimSeniority) (dt : list DimTechnology) (out : Stdout) :
  unique_natural_keys dc dd dco ds dt →
  ∃ fact,
    (create_fact_table df dc dd dco ds dt out).1 = Ok fact ∧
    ∀ i (r : HiredRow) f k, df !! i = Some r → fact !! i = Some f →
      (Fact.candidate_key f = Some k ↔
       ∃ d, d ∈ dc ∧ (first_name d, last_name d, email d) = candidate_of r ∧
            candidate_key d = k) ∧
      (Fact.date_key f = Some k ↔
       ∃ d, d ∈ dd ∧ full_date d = strftime (Application_Date r) ∧
            date_key d = k) ∧
      (Fact.country_key f = Some k ↔
       ∃ d, d ∈ dco ∧ country_name d = Country r ∧ country_key d = k) ∧
      (Fact.seniority_key f = Some k ↔
       ∃ d, d ∈ ds ∧ seniority_level d = Seniority r ∧ seniority_key d = k) ∧
      (Fact.technology_key f = Some k ↔
       ∃ d, d ∈ dt ∧ technology_name d = Technology r ∧
            technology_key d = k).
Proof.
  intros Hu. eexists.
  rewrite (create_fact_table_returns df _ _ _ _ _ Hu out). split; [done|].
  intros i r f k Hi Hf. rewrite lookup_fact_rows, Hi in Hf. simplify_eq/=.
  destruct Hu as (Hc & Hd & Hco & Hs & Ht).
  split_and!; by apply resolve_listed.
Qed.

Lemma foreign_key_is_key_of_listing_row_witness :
  unique_natural_keys one_candidate one_date norway_once one_seniority
    one_technology ∧
  ∃ fact,
    (create_fact_table [stray_row; ana] one_candidate one_date norway_once
       one_seniority one_technology []).1 = Ok fact ∧
    ∀ i (r : HiredRow) f k, [stray_row; ana] !! i = Some r →
      fact !! i = Some f →
      (Fact.candidate_key f = Some k ↔
       ∃ d, d ∈ one_candidate ∧
            (first_name d, last_name d, email d) = candidate_of r ∧
            candidate_key d = k) ∧
      (Fact.date_key f = Some k ↔
       ∃ d, d ∈ one_date ∧ full_date d = strftime (Application_Date r) ∧
            date_key d = k) ∧
      (Fact.country_key f = Some k ↔
       ∃ d, d ∈ norway_once ∧ country_name d = Country r ∧
            country_key d = k) ∧
      (Fact.seniority_key f = Some k ↔
       ∃ d, d ∈ one_seniority ∧ seniority_level d = Seniority r ∧
            seniority_key d = k) ∧
      (Fact.technology_key f = Some k ↔
       ∃ d, d ∈ one_technology ∧ technology_name d = Technology r ∧
            technology_key d = k).
Proof.
  assert (unique_natural_keys one_candidate one_date norway_once one_seniority
            one_technology) as Hu.
  { unfold unique_natural_keys.
    split_and!; apply (bool_decide_unpack _); vm_compute; exact I. }
  split; [exact Hu|].
  exact (foreign_key_is_key_of_listing_row [stray_row; ana] one_candidate
           one_date norway_once one_seniority one_technology [] Hu).
Defined.

(** ** The star schema built from one frame *)

(** The builders and the fact build return the six tables of a frame
    exactly when no two different timestamps of the frame fall on one
    calendar date, and the tables are then those of [star]. *)
Lemma built_by_code_iff df out t :
  built_by_code df out t ↔
  one_time_per_day ((λ r : HiredRow, Application_Date r) <$> df) ∧ t = star df.
Proof.
  unfold built_by_code.
  rewrite (create_dim_candidate_returns df out),
    (create_dim_date_returns df out), (create_dim_country_returns df out),
    (create_dim_seniority_returns df out),
    (create_dim_technology_returns df out).
  cbn [fst]. split.
  - destruct t as [dc dd dco ds dt fact].
    cbn [dim_candidate dim_date dim_country dim_seniority dim_technology
         fact_applications].
    intros ([= <-] & [= <-] & [= <-] & [= <-] & [= <-] & Hf).
    fold (built_candidate df) (built_date df) (built_country df)
      (built_seniority df) (built_technology df) in Hf |- *.
    revert Hf.
    destruct (decide (unique_natural_keys (built_candidate df) (built_date df)
                        (built_country df) (built_seniority df)
                        (built_technology df))) as [Hu|Hu].
    + rewrite (create_fact_table_returns df _ _ _ _ _ Hu out).
      intros [= <-]. split; [by apply built_unique|done].
    + by rewrite (create_fact_table_raises df _ _ _ _ _ out Hu).
  - intros [Hday ->]. apply built_unique in Hday. unfold star.
    cbn [dim_candidate dim_date dim_country dim_seniority dim_technology
         fact_applications].
    by rewrite (create_fact_table_returns df _ _ _ _ _ Hday out).
Qed.

Lemma built_by_code_ex df out :
  one_time_per_day ((λ r : HiredRow, Application_Date r) <$> df) ↔
  ∃ t, built_by_code df out t.
Proof.
  split.
  - intros Hday. exists (star df). by apply built_by_code_iff.
  - intros [t [Hday _]%built_by_code_iff]. done.
Qed.

Lemma NoDup_with_keys_key {A B} (mk : Z → A → B) (key : B → Z) (l : list A) :
  (∀ k x, key (mk k x) = k) → NoDup (key <$> with_keys mk l).
Proof. intros Hkey. rewrite fmap_with_keys_key by done. apply NoDup_seqZ. Qed.

(** Within a dimension whose natural keys and surrogate keys are each without
    repetition, two listed natural keys resolve to the same surrogate key only
    when they are equal. *)
Lemma resolve_inj {B} `{EqDecision K} (name : B → K) (key : B → Z)
    (dim : list B) (x y : K) :
  NoDup (name <$> dim) → NoDup (key <$> dim) →
  x ∈ name <$> dim → y ∈ name <$> dim →
  resolve ((λ d, (name d, key d)) <$> dim) x
  = resolve ((λ d, (name d, key d)) <$> dim) y ↔ x = y.
Proof.
  intros Hn Hk Hx Hy. split; [|by intros ->].
  destruct (resolve_row name key dim x Hn Hx) as (d1 & H1 & <- & ->).
  destruct (resolve_row name key dim y Hn Hy) as (d2 & H2 & <- & ->).
  intros [= Heq]. by rewrite (NoDup_fmap_elem_inj key dim d1 d2).
Qed.

(** X9. Surrogate keys neither merge nor split natural keys. The builders
    and the fact build return the six tables of a frame exactly when no two
    different application timestamps of the frame fall on one calendar date;
    in the tables they return, two fact rows carry the same candidate key
    exactly when their source rows have the same (first name, last name,
    email), the same date key exactly when they were filed on the same
    calendar date (which is then: at the same timestamp), and likewise for
    country, seniority and technology. *)
Theorem surrogate_keys_separate_natural_keys (df : list HiredRow)
    (out : Stdout) :
  (one_time_per_day ((λ r : HiredRow, Application_Date r) <$> df) ↔
   ∃ t, built_by_code df out t) ∧
  ∀ t, built_by_code df out t →
    ∀ i j (ri rj : HiredRow) fi fj,
      df !! i = Some ri → df !! j = Some rj →
      fact_applications t !! i = Some fi →
      fact_applications t !! j = Some fj →
      (Fact.candidate_key fi = Fact.candidate_key fj ↔
       candidate_of ri = candidate_of rj) ∧
      (Fact.date_key fi = Fact.date_key fj ↔
       dt_date (Application_Date ri) = dt_date (Application_Date rj)) ∧
      (Fact.date_key fi = Fact.date_key fj ↔
       Application_Date ri = Application_Date rj) ∧
      (Fact.country_key fi = Fact.country_key fj ↔ Country ri = Country rj) ∧
      (Fact.seniority_key fi = Fact.seniority_key fj ↔
       Seniority ri = Seniority rj) ∧
      (Fact.technology_key fi = Fact.technology_key fj ↔
       Technology ri = Technology rj).
Proof.
  split; [apply built_by_code_ex|].
  intros t [Hday ->]%built_by_code_iff i j ri rj fi fj Hi Hj Hfi Hfj.
  unfold star in Hfi, Hfj. cbn [fact_applications] in Hfi, Hfj.
  rewrite lookup_fact_rows, Hi in Hfi. rewrite lookup_fact_rows, Hj in Hfj.
  simplify_eq/=.
  destruct (proj2 (built_unique df) Hday) as (Hc & Hd & Hco & Hs & Ht).
  destruct (built_covers df i ri Hi) as (Ic & Id & Ico & Is & It).
  destruct (built_covers df j rj Hj) as (Jc & Jd & Jco & Js & Jt).
  assert (resolve (date_map (built_date df)) (strftime (Application_Date ri))
          = resolve (date_map (built_date df)) (strftime (Application_Date rj))
          ↔ dt_date (Application_Date ri) = dt_date (Application_Date rj))
    as Hdate.
  { rewrite <-strftime_date.
    apply resolve_inj; [done|by apply NoDup_with_keys_key|done..]. }
  split_and!.
  - apply resolve_inj; [done|by apply NoDup_with_keys_key|done..].
  - exact Hdate.
  - rewrite Hdate. split; [|by intros ->].
    apply (proj1 (one_time_per_day_spec _) Hday).
    + apply list_elem_of_fmap. exists ri.
      split; [done|by eapply list_elem_of_lookup_2].
    + apply list_elem_of_fmap. exists rj.
      split; [done|by eapply list_elem_of_lookup_2].
  - apply resolve_inj; [done|by apply NoDup_with_keys_key|done..].
  - apply resolve_inj; [done|by apply NoDup_with_keys_key|done..].
  - apply resolve_inj; [done|by apply NoDup_with_keys_key|done..].
Qed.

Lemma listed_row_referenced {B} `{EqDecision K} (name : B → K) (key : B → Z)
    (dim : list B) (col : HiredRow → K) (df : list HiredRow) (d : B) :
  NoDup (name <$> dim) → d ∈ dim → name d ∈ col <$> df →
  ∃ i r, df !! i = Some r ∧
         resolve ((λ d, (name d, key d)) <$> dim) (col r) = Some (key d).
Proof.
  intros Hnd Hd (r & Hr & [i Hi]%list_elem_of_lookup_1)%list_elem_of_fmap.
  exists i, r. split; [done|]. apply resolve_listed; [done|]. eauto.
Qed.

(** X10. No dimension row is left unused: in the six tables the builders
    and the fact build return for a frame (they return exactly when no two
    different application timestamps of the frame fall on one calendar
    date), every row of every dimension is referenced by at least one fact
    row. *)
Theorem every_dimension_row_is_referenced (df : list HiredRow)
    (out : Stdout) :
  (one_time_per_day ((λ r : HiredRow, Application_Date r) <$> df) ↔
   ∃ t, built_by_code df out t) ∧
  ∀ t, built_by_code df out t →
    (∀ d, d ∈ dim_candidate t →
       ∃ f, f ∈ fact_applications t ∧
            Fact.candidate_key f = Some (candidate_key d)) ∧
    (∀ d, d ∈ dim_date t →
       ∃ f, f ∈ fact_applications t ∧ Fact.date_key f = Some (date_key d)) ∧
    (∀ d, d ∈ dim_country t →
       ∃ f, f ∈ fact_applications t ∧
            Fact.country_key f = Some (country_key d)) ∧
    (∀ d, d ∈ dim_seniority t →
       ∃ f, f ∈ fact_applications t ∧
            Fact.seniority_key f = Some (seniority_key d)) ∧
    (∀ d, d ∈ dim_technology t →
       ∃ f, f ∈ fact_applications t ∧
            Fact.technology_key f = Some (technology_key d)).
Proof.
  split; [apply built_by_code_ex|].
  intros t [Hday ->]%built_by_code_iff.
  destruct (proj2 (built_unique df) Hday) as (Hc & Hd & Hco & Hs & Ht).
  unfold star. cbn [dim_candidate dim_date dim_country dim_seniority
    dim_technology fact_applications].
  assert (∀ i r, df !! i = Some r →
    fact_row (built_candidate df) (built_date df) (built_country df)
      (built_seniority df) (built_technology df) i r
    ∈ fact_rows df (built_candidate df) (built_date df) (built_country df)
        (built_seniority df) (built_technology df)) as Hin.
  { intros i r Hi. apply (list_elem_of_lookup_2 _ i).
    by rewrite lookup_fact_rows, Hi. }
  split_and!; intros d Hin_d.
  - destruct (listed_row_referenced
                (λ d, (first_name d, last_name d, email d)) candidate_key
                (built_candidate df) (λ r : HiredRow, candidate_of r) df d)
      as (i & r & Hi & Hres); [done..| |eauto].
    apply elem_of_candidates. rewrite <-built_candidate_names.
    apply list_elem_of_fmap. eauto.
  - assert (full_date d ∈ strftime <$> dates df) as Hfd.
    { rewrite <-built_date_names. apply list_elem_of_fmap. eauto. }
    apply list_elem_of_fmap in Hfd as (dat & Hdat & Hel).
    apply elem_of_dates, list_elem_of_fmap in Hel as (r & -> & Hr).
    apply list_elem_of_lookup_1 in Hr as [i Hi].
    exists (fact_row (built_candidate df) (built_date df) (built_country df)
              (built_seniority df) (built_technology df) i r).
    split; [by apply Hin|]. cbn [fact_row Fact.date_key].
    apply resolve_listed; [done|]. eauto.
  - destruct (listed_row_referenced country_name country_key
                (built_country df) (λ r : HiredRow, Country r) df d)
      as (i & r & Hi & Hres); [done..| |eauto].
    apply (elem_of_labels df Country). rewrite <-built_country_names.
    apply list_elem_of_fmap. eauto.
  - destruct (listed_row_referenced seniority_level seniority_key
                (built_seniority df) (λ r : HiredRow, Seniority r) df d)
      as (i & r & Hi & Hres); [done..| |eauto].
    apply (elem_of_labels df Seniority). rewrite <-built_seniority_names.
    apply list_elem_of_fmap. eauto.
  - destruct (listed_row_referenced technology_name technology_key
                (built_technology df) (λ r : HiredRow, Technology r) df d)
      as (i & r & Hi & Hres); [done..| |eauto].
    apply (elem_of_labels df Technology). rewrite <-built_technology_names.
    apply list_elem_of_fmap. eauto.
Qed.

(** ** TransformOrchestrator, end to end *)

Lemma unresolved_0 `{EqDecision K} (keys names : list K) :
  (∀ k, k ∈ keys → k ∈ names) → unresolved keys names = 0.
Proof.
  intros Hall. unfold unresolved.
  induction keys as [|k keys IH]; [done|].
  rewrite filter_cons_False by (intros Hk; apply Hk, Hall; left).
  apply IH. intros k' Hk'. apply Hall. by right.
Qed.

Lemma integrity_report_built df :
  integrity_report
    (fact_rows df (built_candidate df) (built_date df) (built_country df)
       (built_seniority df) (built_technology df))
  = Text "Referential integrity check: PASSED".
Proof.
  unfold integrity_report. rewrite null_keys_fact_rows.
  assert (Forall (λ c, c.2 = 0)
            (expected_null_keys df (built_candidate df) (built_date df)
               (built_country df) (built_seniority df) (built_technology df)))
    as Hzero.
  { assert (∀ {K} (col : HiredRow → K) (x : K),
      x ∈ col <$> df → ∃ i r, df !! i = Some r ∧ x = col r) as Hpos.
    { intros K col x (r & -> & [i Hi]%list_elem_of_lookup_1)%list_elem_of_fmap.
      eauto. }
    repeat constructor; cbn [snd]; apply unresolved_0; intros x Hx;
      apply Hpos in Hx as (i & r & Hi & ->);
      by destruct (built_covers df i r Hi) as (? & ? & ? & ? & ?). }
  pose proof (sum_pos_iff _ (expected_null_keys_nonneg df (built_candidate df)
    (built_date df) (built_country df) (built_seniority df)
    (built_technology df))) as Hsum.
  case_decide; [|done]. by apply Hsum in Hzero.
Qed.

(** The dates of the frame handed to the builders are those of the input
    rows without null. *)
Lemma typed_dates l :
  Forall (λ r, row_nulls r = 0) l →
  Application_Date <$> typed (strip_text_cols <$> l)
  = omap Raw.Application_Date l.
Proof.
  induction 1 as [|r l Hr _ IH]; [done|].
  destruct (typed_row_Some (strip_text_cols r)) as (r' & Hr' & Hu);
    [by rewrite row_nulls_strip|].
  apply (f_equal Raw.Application_Date) in Hu. simpl in Hu.
  unfold typed in *. cbn [fmap list_fmap omap list_omap].
  rewrite Hr', <-Hu. cbn [fmap list_fmap]. by rewrite IH.
Qed.

Lemma cleansed_dates df :
  (λ r : HiredRow, Application_Date r) <$> cleansed df = surviving_dates df.
Proof.
  unfold cleansed, flagged, cleaned, surviving_dates.
  rewrite <-list_fmap_compose. rewrite <-(typed_dates (dropna df))
    by apply dropna_no_nulls.
  by apply list_fmap_ext.
Qed.

Lemma built_unique_cleansed df :
  unique_natural_keys (built_candidate (cleansed df))
    (built_date (cleansed df)) (built_country (cleansed df))
    (built_seniority (cleansed df)) (built_technology (cleansed df)) ↔
  one_time_per_day (surviving_dates df).
Proof. by rewrite built_unique, cleansed_dates. Qed.

(** What [transform_data] returns and what it prints about the frame, when
    the frame is text-typed and no two different timestamps of its rows
    without null fall on one calendar date. *)
Lemma transform_data_star (df : list Raw.Row) :
  text_typed df → one_time_per_day (surviving_dates df) →
  ∃ log,
    returns (transform_data df) (star (cleansed df)) log ∧
    Text "Referential integrity check: PASSED" ∈ log ∧
    (∀ counts, NullForeignKeys counts ∉ log) ∧
    Hired (Z.of_nat (length (filter meets_rule (typed (cleaned df))))) ∈ log ∧
    Records "FACT_APPLICATIONS" (Z.of_nat (length (cleansed df))) ∈ log.
Proof.
  intros Htyped Hday%built_unique_cleansed.
  pose proof (handle_data_quality_log df Htyped) as Hclean.
  pose proof (apply_hiring_rule_log (typed (cleaned df))) as Hrule.
  fold (cleansed df) in Hrule.
  pose proof (create_dim_candidate_returns (cleansed df)) as Hc.
  pose proof (create_dim_date_returns (cleansed df)) as Hd.
  pose proof (create_dim_country_returns (cleansed df)) as Hco.
  pose proof (create_dim_seniority_returns (cleansed df)) as Hs.
  pose proof (create_dim_technology_returns (cleansed df)) as Ht.
  pose proof (create_fact_table_returns (cleansed df) _ _ _ _ _ Hday) as Hf.
  rewrite integrity_report_built in Hf.
  destruct (decide (null_count df = 0)) as [H0|H0]; eexists; (split;
  [ unfold transform_data; returns_chain; apply returns_ret
  | split_and!;
    [ set_solver
    | intros counts; rewrite !elem_of_app, !elem_of_cons, elem_of_nil;
      naive_solver
    | set_solver
    | set_solver ] ]).
Qed.

(** When two different timestamps of the rows without null fall on one
    calendar date, the transform raises at the fact build, after the five
    dimensions have been built and reported. *)
Lemma transform_data_InvalidIndexError (df : list Raw.Row) :
  text_typed df → ¬ one_time_per_day (surviving_dates df) →
  ∃ log,
    raises (transform_data df) InvalidIndexError log ∧
    (∀ counts, NullForeignKeys counts ∉ log) ∧
    Text "[FACT] Building FACT_APPLICATIONS..." ∈ log.
Proof.
  intros Htyped Hday. rewrite <-built_unique_cleansed in Hday.
  pose proof (handle_data_quality_log df Htyped) as Hclean.
  pose proof (apply_hiring_rule_log (typed (cleaned df))) as Hrule.
  fold (cleansed df) in Hrule.
  pose proof (create_dim_candidate_returns (cleansed df)) as Hc.
  pose proof (create_dim_date_returns (cleansed df)) as Hd.
  pose proof (create_dim_country_returns (cleansed df)) as Hco.
  pose proof (create_dim_seniority_returns (cleansed df)) as Hs.
  pose proof (create_dim_technology_returns (cleansed df)) as Ht.
  pose proof (create_fact_table_raises_log (cleansed df) _ _ _ _ _ Hday) as Hf.
  destruct (decide (null_count df = 0)) as [H0|H0]; eexists; (split;
  [ unfold transform_data; raises_chain; apply raises_bind; exact Hf
  | split;
    [ intros counts; rewrite !elem_of_app, !elem_of_cons, elem_of_nil;
      naive_solver
    | set_solver ] ]).
Qed.

(** On a frame that is not text-typed the transform raises in the cleanser,
    after the report of the dropped rows. *)
Lemma transform_data_AttributeError (df : list Raw.Row) :
  ¬ text_typed df →
  raises (transform_data df) AttributeError
    [ Text rule; Text "STEP 2: TRANSFORMATION"; Text rule;
      Text "[1/7] Handling data quality...";
      DroppedNulls (Z.of_nat (length df)) ].
Proof.
  intros Htyped.
  pose proof (handle_data_quality_raises df Htyped) as Hclean.
  unfold transform_data. raises_chain. apply raises_bind. exact Hclean.
Qed.

Lemma length_typed_cleaned df : length (typed (cleaned df)) = length (dropna df).
Proof.
  rewrite <-(length_fmap untyped_row). unfold cleaned.
  rewrite typed_handle_data_quality. apply length_fmap.
Qed.

Lemma length_cleansed df :
  Z.of_nat (length (cleansed df)) = Z.of_nat (length df) - rows_with_null df.
Proof.
  unfold cleansed, flagged. rewrite length_fmap, length_typed_cleaned.
  apply length_dropna.
Qed.

(** A row of the cleansed frame comes from a stripped row without null. *)
Lemma elem_of_cleansed df (r : HiredRow) :
  r ∈ cleansed df →
  is_hired r = hiring_rule r ∧
  ∃ r0, r0 ∈ df ∧ row_nulls r0 = 0 ∧ untyped_row r = strip_text_cols r0.
Proof.
  unfold cleansed, flagged.
  intros (r1 & -> & Hr1)%list_elem_of_fmap. split; [done|]. simpl.
  apply (list_elem_of_fmap_2 untyped_row) in Hr1.
  unfold cleaned in Hr1. rewrite typed_handle_data_quality in Hr1.
  fold (cleaned df) in Hr1. apply elem_of_cleaned in Hr1. naive_solver.
Qed.

Lemma cleansed_trimmed df (r : HiredRow) :
  r ∈ cleansed df →
  trimmed (First_Name r) ∧ trimmed (Last_Name r) ∧ trimmed (Email r) ∧
  trimmed (Country r) ∧ trimmed (Seniority r) ∧ trimmed (Technology r).
Proof.
  intros (_ & r0 & _ & H0 & Heq)%elem_of_cleansed.
  destruct r0 as [[?|] [?|] [?|] [?|] [?|] [?|] [?|] [?|] [?|] [?|]];
    try done.
  unfold untyped_row, strip_text_cols in Heq. cbn in Heq.
  injection Heq as -> -> -> _ -> _ -> -> _ _.
  split_and!; apply trimmed_strip.
Qed.

(** X11. The pipeline never prints the warning about null foreign keys.
    From any raw frame and any state of standard output, [transform_data]
    ends in one of three ways, and in none of them is the warning among the
    lines printed. It returns when the frame is text-typed and no two
    different timestamps of its rows without null fall on one calendar date:
    then the fact table has one row per input row without null, every foreign
    key in it is present and lies between 1 and the number of rows of its
    dimension, and the check prints that it passed. It raises
    [AttributeError] when the frame is not text-typed, and
    [InvalidIndexError] when it is and two such timestamps share a date. *)
Theorem transform_never_warns_on_integrity (df : list Raw.Row)
    (out : Stdout) :
  ∃ res log,
    transform_data df out = (res, out ++ log) ∧
    (∀ counts, NullForeignKeys counts ∉ log) ∧
    match res with
    | Ok t =>
        text_typed df ∧ one_time_per_day (surviving_dates df) ∧
        Z.of_nat (length (fact_applications t))
        = Z.of_nat (length df) - rows_with_null df ∧
        Text "Referential integrity check: PASSED" ∈ log ∧
        Forall (λ f,
          (∃ k, Fact.candidate_key f = Some k ∧
                1 ≤ k ≤ Z.of_nat (length (dim_candidate t))) ∧
          (∃ k, Fact.date_key f = Some k ∧
                1 ≤ k ≤ Z.of_nat (length (dim_date t))) ∧
          (∃ k, Fact.country_key f = Some k ∧
                1 ≤ k ≤ Z.of_nat (length (dim_country t))) ∧
          (∃ k, Fact.seniority_key f = Some k ∧
                1 ≤ k ≤ Z.of_nat (length (dim_seniority t))) ∧
          (∃ k, Fact.technology_key f = Some k ∧
                1 ≤ k ≤ Z.of_nat (length (dim_technology t))))
          (fact_applications t)
    | Raise e =>
        (e = AttributeError ∧ ¬ text_typed df) ∨
        (e = InvalidIndexError ∧ text_typed df ∧
         ¬ one_time_per_day (surviving_dates df))
    end.
Proof.
  destruct (decide (text_typed df)) as [Htyped|Htyped];
    [destruct (decide (one_time_per_day (surviving_dates df))) as [Hday|Hday]|].
  - destruct (transform_data_star df Htyped Hday)
      as (log & Hrun & Hpass & Hwarn & _ & _).
    exists (Ok (star (cleansed df))), log. rewrite (Hrun out).
    split_and!; [done|done|done|done| |done|].
    + unfold star. cbn [fact_applications].
      rewrite length_fact_rows. apply length_cleansed.
    + set (cf := cleansed df). unfold star.
      cbn [fact_applications dim_candidate dim_date dim_country dim_seniority
           dim_technology].
      apply Forall_forall. intros f [i Hf]%list_elem_of_lookup_1.
      rewrite lookup_fact_rows in Hf.
      destruct (cf !! i) as [r|] eqn:Hi; [|done]. simplify_eq/=.
      destruct (proj2 (built_unique_cleansed df) Hday)
        as (Hc & Hd & Hco & Hs & Ht).
      destruct (built_covers cf i r Hi) as (Ic & Id & Ico & Is & It).
      assert (∀ {B} (key : B → Z) (dim : list B) (d : B),
        key <$> dim = seqZ 1 (Z.of_nat (length dim)) → d ∈ dim →
        1 ≤ key d ≤ Z.of_nat (length dim)) as Hrange.
      { intros B key dim d Hkeys Hd'.
        apply (list_elem_of_fmap_2 key) in Hd'. rewrite Hkeys in Hd'.
        apply elem_of_seqZ in Hd'. lia. }
      split_and!.
      * apply (resolve_row _ candidate_key) in Ic as (d & Hd' & _ & Hres);
          [|done].
        exists (candidate_key d). split; [exact Hres|]. apply Hrange; [|done].
        unfold built_candidate.
        rewrite length_with_keys. by apply fmap_with_keys_key.
      * apply (resolve_row _ date_key) in Id as (d & Hd' & _ & Hres);
          [|done].
        exists (date_key d). split; [exact Hres|]. apply Hrange; [|done].
        unfold built_date.
        rewrite length_with_keys. by apply fmap_with_keys_key.
      * apply (resolve_row _ country_key) in Ico as (d & Hd' & _ & Hres);
          [|done].
        exists (country_key d). split; [exact Hres|]. apply Hrange; [|done].
        unfold built_country.
        rewrite length_with_keys. by apply fmap_with_keys_key.
      * apply (resolve_row _ seniority_key) in Is as (d & Hd' & _ & Hres);
          [|done].
        exists (seniority_key d). split; [exact Hres|]. apply Hrange; [|done].
        unfold built_seniority.
        rewrite length_with_keys. by apply fmap_with_keys_key.
      * apply (resolve_row _ technology_key) in It as (d & Hd' & _ & Hres);
          [|done].
        exists (technology_key d). split; [exact Hres|]. apply Hrange; [|done].
        unfold built_technology.
        rewrite length_with_keys. by apply fmap_with_keys_key.
  - destruct (transform_data_InvalidIndexError df Htyped Hday)
      as (log & Hrun & Hwarn & _).
    exists (Raise InvalidIndexError), log. rewrite (Hrun out).
    split_and!; [done|done|]. by right.
  - eexists (Raise AttributeError), _.
    rewrite (transform_data_AttributeError df Htyped out).
    split_and!; [done| |by left].
    intros counts. rewrite !elem_of_cons, elem_of_nil. naive_solver.
Qed.

Lemma sum_is_hired_fmap (df : list HiredRow) :
  sum_is_hired df = foldr Z.add 0 (is_hired <$> df).
Proof.
  unfold sum_is_hired. induction df as [|r df IH]; [done|].
  cbn [foldr fmap list_fmap]. by rewrite IH.
Qed.

(** X12. In a fact table that [transform_data] returns, the hire flag of
    every row agrees with the scores of that same row (1 exactly when both
    are at least 7, otherwise 0), and the flags add up to the hired count the
    pipeline printed. The transform returns a table exactly when the frame is
    text-typed and no two different timestamps of its rows without null fall
    on one calendar date. *)
Theorem fact_flags_follow_fact_scores (df : list Raw.Row) (out : Stdout) :
  ∃ res log,
    transform_data df out = (res, out ++ log) ∧
    match res with
    | Ok t =>
        text_typed df ∧ one_time_per_day (surviving_dates df) ∧
        ∃ hired,
          Hired hired ∈ log ∧
          foldr Z.add 0 (Fact.is_hired <$> fact_applications t) = hired ∧
          Forall (λ f,
            (Fact.is_hired f = 1 ↔
             7 ≤ Fact.code_challenge_score f ∧
             7 ≤ Fact.technical_interview_score f) ∧
            (Fact.is_hired f = 1 ∨ Fact.is_hired f = 0))
            (fact_applications t)
    | Raise _ =>
        ¬ (text_typed df ∧ one_time_per_day (surviving_dates df))
    end.
Proof.
  destruct (decide (text_typed df)) as [Htyped|Htyped];
    [destruct (decide (one_time_per_day (surviving_dates df))) as [Hday|Hday]|].
  - destruct (transform_data_star df Htyped Hday)
      as (log & Hrun & _ & _ & Hhired & _).
    exists (Ok (star (cleansed df))), log. rewrite (Hrun out).
    split_and!; [done|done|done|]. eexists. split_and!; [exact Hhired|..].
    + unfold star. cbn [fact_applications].
      rewrite (fact_rows_column _ _ _ _ _ _ Fact.is_hired is_hired) by done.
      rewrite <-sum_is_hired_fmap. apply sum_is_hired_flagged.
    + unfold star. cbn [fact_applications]. apply Forall_forall.
      intros f [i Hf]%list_elem_of_lookup_1. rewrite lookup_fact_rows in Hf.
      destruct (cleansed df !! i) as [r|] eqn:Hi; [|done]. simplify_eq/=.
      apply list_elem_of_lookup_2, elem_of_cleansed in Hi as [-> _].
      split; [apply hiring_rule_1|].
      destruct (decide (meets_rule r)) as [Hr|Hr].
      * left. by apply hiring_rule_1.
      * right. by apply hiring_rule_0.
  - destruct (transform_data_InvalidIndexError df Htyped Hday)
      as (log & Hrun & _).
    exists (Raise InvalidIndexError), log. rewrite (Hrun out).
    split; [done|]. by intros [_ ?].
  - eexists (Raise AttributeError), _.
    rewrite (transform_data_AttributeError df Htyped out).
    split; [done|]. by intros [? _].
Qed.

Lemma surviving_dates_cleaned df :
  surviving_dates (cleaned df) = surviving_dates df.
Proof.
  rewrite <-!cleansed_dates. unfold cleansed. by rewrite cleaned_idemp.
Qed.

(** X13. Cleaning a frame beforehand changes nothing: when
    [handle_data_quality] returns a frame, [transform_data] ends on that
    frame as it ends on the original one, with the same six tables or with
    the same exception; when [handle_data_quality] raises, [transform_data]
    raises the same exception. *)
Theorem transform_after_cleaning_is_transform (df : list Raw.Row)
    (out out1 out2 : Stdout) :
  match (handle_data_quality df out).1 with
  | Ok df' =>
      text_typed df ∧
      (transform_data df' out2).1 = (transform_data df out1).1
  | Raise e =>
      ¬ text_typed df ∧ (transform_data df out1).1 = Raise e
  end.
Proof.
  destruct (decide (text_typed df)) as [Htyped|Htyped].
  - rewrite (handle_data_quality_log df Htyped out). cbn [fst].
    split; [done|].
    pose proof (text_typed_cleaned df) as Htyped'.
    destruct (decide (one_time_per_day (surviving_dates df))) as [Hday|Hday].
    + destruct (transform_data_star df Htyped Hday) as (log1 & Hrun1 & _).
      destruct (transform_data_star (cleaned df) Htyped')
        as (log2 & Hrun2 & _); [by rewrite surviving_dates_cleaned|].
      rewrite (Hrun1 out1), (Hrun2 out2). unfold cleansed.
      by rewrite cleaned_idemp.
    + destruct (transform_data_InvalidIndexError df Htyped Hday)
        as (log1 & Hrun1 & _).
      destruct (transform_data_InvalidIndexError (cleaned df) Htyped')
        as (log2 & Hrun2 & _); [by rewrite surviving_dates_cleaned|].
      by rewrite (Hrun1 out1), (Hrun2 out2).
  - by rewrite (handle_data_quality_raises df Htyped out),
      (transform_data_AttributeError df Htyped out1).
Qed.

(** X14. No natural key of a returned dimension starts or ends with
    whitespace: in the tables [transform_data] returns, the names and email
    of every candidate row and the labels of every country, seniority and
    technology row are stripped text. The transform returns tables exactly
    when the frame is text-typed and no two different timestamps of its rows
    without null fall on one calendar date. *)
Theorem dimension_text_is_stripped (df : list Raw.Row) (out : Stdout) :
  match (transform_data df out).1 with
  | Ok t =>
      text_typed df ∧ one_time_per_day (surviving_dates df) ∧
      Forall (λ d, trimmed (first_name d) ∧ trimmed (last_name d) ∧
                   trimmed (email d)) (dim_candidate t) ∧
      Forall (λ d, trimmed (country_name d)) (dim_country t) ∧
      Forall (λ d, trimmed (seniority_level d)) (dim_seniority t) ∧
      Forall (λ d, trimmed (technology_name d)) (dim_technology t)
  | Raise _ => ¬ (text_typed df ∧ one_time_per_day (surviving_dates df))
  end.
Proof.
  destruct (decide (text_typed df)) as [Htyped|Htyped];
    [destruct (decide (one_time_per_day (surviving_dates df))) as [Hday|Hday]|].
  - destruct (transform_data_star df Htyped Hday) as (log & Hrun & _).
    rewrite (Hrun out). cbn [fst]. split; [done|]. split; [done|].
    set (cf := cleansed df). unfold star.
    cbn [dim_candidate dim_country dim_seniority dim_technology].
    split_and!; apply Forall_forall; intros d Hd.
    + apply (list_elem_of_fmap_2 (λ d, (first_name d, last_name d, email d)))
        in Hd.
      rewrite built_candidate_names in Hd.
      apply elem_of_candidates, list_elem_of_fmap in Hd as (r & Heq & Hr).
      apply cleansed_trimmed in Hr as (? & ? & ? & _).
      unfold candidate_of in Heq. injection Heq as -> -> ->. done.
    + apply (list_elem_of_fmap_2 country_name) in Hd.
      rewrite built_country_names in Hd.
      apply (elem_of_labels cf Country), list_elem_of_fmap in Hd
        as (r & -> & Hr).
      by apply cleansed_trimmed in Hr as (_ & _ & _ & ? & _).
    + apply (list_elem_of_fmap_2 seniority_level) in Hd.
      rewrite built_seniority_names in Hd.
      apply (elem_of_labels cf Seniority), list_elem_of_fmap in Hd
        as (r & -> & Hr).
      by apply cleansed_trimmed in Hr as (_ & _ & _ & _ & ? & _).
    + apply (list_elem_of_fmap_2 technology_name) in Hd.
      rewrite built_technology_names in Hd.
      apply (elem_of_labels cf Technology), list_elem_of_fmap in Hd
        as (r & -> & Hr).
      by apply cleansed_trimmed in Hr as (_ & _ & _ & _ & _ & ?).
  - destruct (transform_data_InvalidIndexError df Htyped Hday)
      as (log & Hrun & _).
    rewrite (Hrun out). cbn [fst]. by intros [_ ?].
  - rewrite (transform_data_AttributeError df Htyped out). cbn [fst].
    by intros [? _].
Qed.

(** ** DimensionBuilder: the date dimension over timestamps *)

(** X15. The rendered date identifies the calendar date and nothing more:
    two timestamps have the same ["%Y-%m-%d"] text exactly when they fall on
    the same calendar date, whatever their times of day. So the [full_date]
    column of the date dimension of a frame holds no text twice exactly when
    no two different timestamps of the frame fall on one calendar date. *)
Theorem full_date_identifies_calendar_date (df : list HiredRow)
    (out : Stdout) :
  (∀ t1 t2, strftime t1 = strftime t2 ↔ dt_date t1 = dt_date t2) ∧
  ∃ dim,
    (create_dim_date df out).1 = Ok dim ∧
    (NoDup (full_date <$> dim) ↔
     one_time_per_day ((λ r : HiredRow, Application_Date r) <$> df)).
Proof.
  split; [apply strftime_date|].
  eexists. rewrite (create_dim_date_returns df out). split; [done|].
  apply NoDup_built_date.
Qed.

(** X17. The date dimension has one row per distinct application timestamp:
    the timestamps run down the table in ascending chronological order and
    row number i (from 0) carries the key i + 1, the rendered calendar date
    of its timestamp and the year, the month and the quarter of that date,
    the quarter being 1 for January to March, 2 for April to June, 3 for July
    to September and 4 for October to December. The table has one row per
    calendar date exactly when no two different timestamps of the frame fall
    on one calendar date. *)
Theorem date_dimension_one_row_per_timestamp (df : list HiredRow)
    (out : Stdout) :
  ∃ (dim : list DimDate) (ts : list Timestamp),
    (create_dim_date df out).1 = Ok dim ∧
    NoDup ts ∧
    (∀ t, t ∈ ts ↔ t ∈ (λ r : HiredRow, Application_Date r) <$> df) ∧
    StronglySorted timestamp_lt ts ∧
    length dim = length ts ∧
    (∀ i t, ts !! i = Some t →
       dim !! i = Some (mkDimDate (Z.of_nat i + 1) (strftime t)
                          (Z.of_N (dt_year t)) (Z.of_N (dt_month t))
                          (quarter_of_month (Z.of_N (dt_month t))))) ∧
    quarter_of_month <$> [1; 2; 3; 4; 5; 6; 7; 8; 9; 10; 11; 12]
    = [1; 1; 1; 2; 2; 2; 3; 3; 3; 4; 4; 4] ∧
    (NoDup (dt_date <$> ts) ↔
     one_time_per_day ((λ r : HiredRow, Application_Date r) <$> df)).
Proof.
  exists (with_keys date_row (dates df)), (dates df). split_and!.
  - by rewrite (create_dim_date_returns df out).
  - apply NoDup_dates.
  - apply elem_of_dates.
  - apply sorted_dates.
  - apply length_with_keys.
  - intros i t Hi. by rewrite lookup_with_keys, Hi.
  - reflexivity.
  - rewrite (NoDup_fmap_inj_on dt_date) by apply NoDup_dates.
    rewrite one_time_per_day_spec. split.
    + intros H t1 t2 H1 H2. apply H; by apply elem_of_dates.
    + intros H t1 t2 H1 H2. apply H.
      * by apply elem_of_dates in H1.
      * by apply elem_of_dates in H2.
Qed.

(** ** FactBuilder: one row per application *)

(** X18. The fact build never returns with a row missing. On the dimensions
    built from the frame itself it returns exactly when no two different
    application timestamps of the frame fall on one calendar date; on any
    dimension tables it returns exactly when none of them lists a natural key
    twice; and whenever it returns, the fact table has one row per row of the
    frame, its primary keys are 1, ..., N down the table, and row i carries
    the two scores and the hire flag of row i of the frame. Otherwise it
    raises [InvalidIndexError]. *)
Theorem fact_table_one_row_per_application (df : list HiredRow)
    (o1 o2 o3 o4 o5 o6 : Stdout) :
  (∃ dc dd dco ds dt,
     (create_dim_candidate df o1).1 = Ok dc ∧
     (create_dim_date df o2).1 = Ok dd ∧
     (create_dim_country df o3).1 = Ok dco ∧
     (create_dim_seniority df o4).1 = Ok ds ∧
     (create_dim_technology df o5).1 = Ok dt ∧
     match (create_fact_table df dc dd dco ds dt o6).1 with
     | Ok fact =>
         one_time_per_day ((λ r : HiredRow, Application_Date r) <$> df) ∧
         one_row_per_application df fact
     | Raise e =>
         e = InvalidIndexError ∧
         ¬ one_time_per_day ((λ r : HiredRow, Application_Date r) <$> df)
     end) ∧
  (∀ dc dd dco ds dt,
     match (create_fact_table df dc dd dco ds dt o6).1 with
     | Ok fact =>
         unique_natural_keys dc dd dco ds dt ∧
         one_row_per_application df fact
     | Raise e =>
         e = InvalidIndexError ∧ ¬ unique_natural_keys dc dd dco ds dt
     end).
Proof.
  assert (∀ dc dd dco ds dt,
     match (create_fact_table df dc dd dco ds dt o6).1 with
     | Ok fact =>
         unique_natural_keys dc dd dco ds dt ∧
         one_row_per_application df fact
     | Raise e =>
         e = InvalidIndexError ∧ ¬ unique_natural_keys dc dd dco ds dt
     end) as Hany.
  { intros dc dd dco ds dt.
    destruct (decide (unique_natural_keys dc dd dco ds dt)) as [Hu|Hu].
    - rewrite (create_fact_table_returns df _ _ _ _ _ Hu o6). cbn [fst].
      split; [done|]. apply one_row_per_application_fact_rows.
    - by rewrite (create_fact_table_raises df _ _ _ _ _ o6 Hu). }
  split; [|exact Hany].
  exists (built_candidate df), (built_date df), (built_country df),
    (built_seniority df), (built_technology df).
  rewrite (create_dim_candidate_returns df o1),
    (create_dim_date_returns df o2), (create_dim_country_returns df o3),
    (create_dim_seniority_returns df o4),
    (create_dim_technology_returns df o5).
  split_and!; [done..|].
  specialize (Hany (built_candidate df) (built_date df) (built_country df)
                (built_seniority df) (built_technology df)).
  destruct (create_fact_table df _ _ _ _ _ o6).1 as [fact|e].
  - destruct Hany as [Hu Hrows]. split; [by apply built_unique|done].
  - destruct Hany as [-> Hu]. split; [done|]. by rewrite <-built_unique.
Qed.

(** ** DimensionBuilder: candidate keys when rows are appended *)

Lemma drop_duplicates_from_app `{EqDecision A} (seen l k : list A) :
  ∃ rest,
    drop_duplicates_from seen (l ++ k) = drop_duplicates_from seen l ++ rest.
Proof.
  revert seen. induction l as [|x l IH]; intros seen; simpl.
  - by eexists.
  - case_decide; [apply IH|].
    destruct (IH (x :: seen)) as [rest ->]. by exists rest.
Qed.

Lemma with_keys_app {A B} (mk : Z → A → B) (l k : list A) :
  ∃ rest, with_keys mk (l ++ k) = with_keys mk l ++ rest.
Proof. unfold with_keys. rewrite imap_app. by eexists. Qed.

(** X16. Candidate keys survive the arrival of new rows: when rows are
    appended to a frame, the candidate dimension of the longer frame starts
    with the candidate dimension of the shorter one, row for row and key for
    key; candidates already present keep their surrogate keys. *)
Theorem candidate_keys_stable_under_append (df more : list HiredRow)
    (out out' : Stdout) :
  ∃ dim dim',
    (create_dim_candidate df out).1 = Ok dim ∧
    (create_dim_candidate (df ++ more) out').1 = Ok dim' ∧
    dim `prefix_of` dim'.
Proof.
  eexists _, _.
  rewrite (create_dim_candidate_returns df out),
    (create_dim_candidate_returns (df ++ more) out').
  split_and!; [done..|]. unfold candidates, drop_duplicates.
  rewrite fmap_app.
  destruct (drop_duplicates_from_app []
              ((λ r : HiredRow, candidate_of r) <$> df)
              ((λ r : HiredRow, candidate_of r) <$> more)) as [rest ->].
  destruct (with_keys_app candidate_row
              (drop_duplicates_from []
                 ((λ r : HiredRow, candidate_of r) <$> df)) rest)
    as [rest' ->].
  by exists rest'.
Qed.
